(** * EchoTranslate: the recording / transcription session lifecycle

    A shallow embedding of the repository's [App.tsx]: the audio encoder
    ([encode], [createBlob]), the history store ([saveToHistory],
    [deleteHistoryItem]), the translation invoker ([translateText]), the
    session lifecycle controller ([startRecording], [stopRecording],
    [handleMessage], [handleError]) and the transcription of a file
    ([fileToBase64], [transcribeAudioFile]).

    Conventions of the embedding.
    - A JavaScript string is the [string] of the bytes of its UTF-16 code
      units, each code unit encoded on its own as UTF-8 does (one to three
      bytes); joining two strings joins their bytes, and an ASCII text is
      its own bytes.
    - A [Float32Array] element is a [spec_float] (binary32: [prec = 24],
      [emax = 128]); a JavaScript Number that is finite is the rational it
      denotes.
    - React state, refs, [localStorage] and the log of calls made to the
      outside world are fields of one explicit state that every handler
      threads.
    - An [async] function is cut at its [await]s: the part after an [await]
      is a continuation, parked in the state until the awaited promise
      settles.
    - The answer of a [generateContent] request that succeeds carries a
      text. *)

From Stdlib Require Import ZArith QArith Qround List String Ascii Bool Lia Lqa.
From Stdlib Require Import Floats.SpecFloat.
Import ListNotations.

(** ** Audio helper functions *)

Module Audio.

Local Open Scope Z_scope.

(** The value of a JavaScript Number. *)
Variant Number : Type :=
| NaN
| Infinity (negative : bool)
| Finite (q : Q).

(** [2^e] as a rational, for any integer exponent. *)
Definition pow2 (e : Z) : Q :=
  match e with
  | Z0 => 1%Q
  | Zpos p => inject_Z (2 ^ Zpos p)
  | Zneg p => (1 # (2 ^ p))%Q
  end.

(** Reading [data[i]] from a [Float32Array] yields the Number with the same
    value: every binary32 value is a binary64 value. *)
Definition toNumber (x : spec_float) : Number :=
  match x with
  | S754_zero _ => Finite 0
  | S754_infinity s => Infinity s
  | S754_nan => NaN
  | S754_finite s m e => Finite (inject_Z (cond_Zopp s (Zpos m)) * pow2 e)
  end.

(** [x * 32768].  The product of a binary32 value and [2^15] only moves the
    exponent, which stays far inside the binary64 range, so the binary64
    product is the exact one. *)
Definition times32768 (x : Number) : Number :=
  match x with
  | NaN => NaN
  | Infinity s => Infinity s
  | Finite q => Finite (q * inject_Z 32768)
  end.

(** ECMAScript [truncate]: drop the fractional part, toward zero. *)
Definition truncate (q : Q) : Z :=
  if Qle_bool 0 q then Qfloor q else - Qfloor (- q).

(** ECMAScript [ToInt16], the conversion a store into an [Int16Array]
    applies: not-finite gives 0; otherwise truncate, reduce modulo [2^16],
    and read the result as two's complement. *)
Definition ToInt16 (x : Number) : Z :=
  match x with
  | NaN | Infinity _ => 0
  | Finite q =>
      let int := truncate q in
      let int16bit := int mod 65536 in
      if 32768 <=? int16bit then int16bit - 65536 else int16bit
  end.

(** The loop of [createBlob]: [int16[i] = data[i] * 32768]. *)
Definition int16_of_sample (s : spec_float) : Z :=
  ToInt16 (times32768 (toNumber s)).

Definition fillInt16 (data : list spec_float) : list Z :=
  map int16_of_sample data.

(** [new Uint8Array(int16.buffer)]: the two bytes of every element, low
    byte first (typed arrays use the platform's byte order, little-endian
    on every platform a browser runs on). *)
Definition bytes_of_int16 (v : Z) : list Z :=
  let u := v mod 65536 in [u mod 256; u / 256].

Definition Uint8Array_of (int16 : list Z) : list Z :=
  flat_map bytes_of_int16 int16.

Definition base64_alphabet : list ascii :=
  list_ascii_of_string
    "ABCDEFGHIJKLMNOPQRSTUVWXYZabcdefghijklmnopqrstuvwxyz0123456789+/".

Definition base64_digit (n : Z) : ascii :=
  nth (Z.to_nat n) base64_alphabet "="%char.

(** [btoa] of the binary string whose characters are the given bytes. *)
Fixpoint btoa (bytes : list Z) : string :=
  match bytes with
  | [] => EmptyString
  | [a] =>
      String (base64_digit (a / 4))
        (String (base64_digit ((a mod 4) * 16)) "==")
  | [a; b] =>
      String (base64_digit (a / 4))
        (String (base64_digit ((a mod 4) * 16 + b / 16))
           (String (base64_digit ((b mod 16) * 4)) "="))
  | a :: b :: c :: rest =>
      String (base64_digit (a / 4))
        (String (base64_digit ((a mod 4) * 16 + b / 16))
           (String (base64_digit ((b mod 16) * 4 + c / 64))
              (String (base64_digit (c mod 64)) (btoa rest))))
  end.

(** [encode]: build the binary string of the bytes, then [btoa] it. *)
Definition encode (bytes : list Z) : string := btoa bytes.

Record Blob : Type := { data : string; mimeType : string }.

Definition createBlob (samples : list spec_float) : Blob :=
  let int16 := fillInt16 samples in
  {| data := encode (Uint8Array_of int16);
     mimeType := "audio/pcm;rate=16000" |}.

(** *** The conversion rule in the specification's words

    [round(s * 32768)], read as [Math.round] (the nearest integer, ties
    upward), then stored in 16 bits. *)
Definition round_nearest (q : Q) : Z := Qfloor (q + (1 # 2)).

Definition wrap16 (z : Z) : Z :=
  let u := z mod 65536 in if 32768 <=? u then u - 65536 else u.

Definition spec_int16_of_sample (s : spec_float) : Z :=
  match times32768 (toNumber s) with
  | NaN | Infinity _ => 0
  | Finite q => wrap16 (round_nearest q)
  end.

(** The exact real value of [s * 32768], when [s] is finite. *)
Definition scaled (s : spec_float) : option Q :=
  match times32768 (toNumber s) with
  | Finite q => Some q
  | _ => None
  end.

(** [t] is [x] with its fractional part dropped. *)
Definition truncation_of (x : Q) (t : Z) : Prop :=
  ((0 <= x)%Q -> (inject_Z t <= x)%Q /\ (x < inject_Z (t + 1))%Q) /\
  ((x <= 0)%Q -> (inject_Z (t - 1) < x)%Q /\ (x <= inject_Z t)%Q).

(** Some binary32 samples: 1.0, 0.5, -1.0 and 0.75 / 32768. *)
Definition one : spec_float := S754_finite false 8388608 (-23).
Definition half : spec_float := S754_finite false 8388608 (-24).
Definition minus_one : spec_float := S754_finite true 8388608 (-23).
Definition three_quarters_lsb : spec_float := S754_finite false 12582912 (-39).

End Audio.

(** ** Types ([types.ts]) *)

Variant RecordingState : Type :=
| IDLE
| REQUESTING_PERMISSION
| RECORDING
| STOPPING
| TRANSLATING
| ERROR.

Definition RecordingState_eqb (a b : RecordingState) : bool :=
  match a, b with
  | IDLE, IDLE | REQUESTING_PERMISSION, REQUESTING_PERMISSION
  | RECORDING, RECORDING | STOPPING, STOPPING
  | TRANSLATING, TRANSLATING | ERROR, ERROR => true
  | _, _ => false
  end.

Module HistoryEntry.
Record t : Type := mk {
  id : string;
  timestamp : string;
  transcribedText : string;
  translatedText : string;
  targetLanguage : string
}.
End HistoryEntry.

Record Language : Type := { code : string; name : string }.

(** ** String helpers of the JavaScript runtime *)

Local Open Scope string_scope.

(** The value of a continuation byte. *)
Definition continuation (b : ascii) : option N :=
  let n := N_of_ascii b in
  if ((128 <=? n) && (n <? 192))%N then Some (n - 128)%N else None.

(** The code units of a string, read off its bytes; a byte that starts no
    code unit, which the bytes of a JavaScript string never hold, stands
    for U+FFFD. *)
Fixpoint code_units (s : string) : list N :=
  match s with
  | EmptyString => []
  | String a rest =>
      let n := N_of_ascii a in
      if (n <? 128)%N then n :: code_units rest
      else if ((194 <=? n) && (n <? 224))%N then
        match rest with
        | String b rest2 =>
            match continuation b with
            | Some y => ((n - 192) * 64 + y)%N :: code_units rest2
            | None => 65533%N :: code_units rest
            end
        | EmptyString => [65533%N]
        end
      else if ((224 <=? n) && (n <? 240))%N then
        match rest with
        | String b (String c rest3) =>
            match continuation b, continuation c with
            | Some y, Some z =>
                if (2048 <=? (n - 224) * 4096 + y * 64 + z)%N
                then ((n - 224) * 4096 + y * 64 + z)%N :: code_units rest3
                else 65533%N :: code_units rest
            | _, _ => 65533%N :: code_units rest
            end
        | _ => 65533%N :: code_units rest
        end
      else 65533%N :: code_units rest
  end.

(** The bytes of one code unit. *)
Definition bytes_of_code_unit (c : N) : string :=
  if (c <? 128)%N then String (ascii_of_N c) EmptyString
  else if (c <? 2048)%N then
    String (ascii_of_N (192 + c / 64))
      (String (ascii_of_N (128 + c mod 64)) EmptyString)
  else
    String (ascii_of_N (224 + c / 4096))
      (String (ascii_of_N (128 + (c / 64) mod 64))
         (String (ascii_of_N (128 + c mod 64)) EmptyString)).

Fixpoint of_code_units (l : list N) : string :=
  match l with
  | [] => EmptyString
  | c :: rest => bytes_of_code_unit c ++ of_code_units rest
  end.

(** The code units [String.prototype.trim] strips: the WhiteSpace of
    ECMAScript (TAB, VT, FF, U+FEFF and the space separators SP, NBSP,
    U+1680, U+2000 to U+200A, U+202F, U+205F, U+3000) and its
    LineTerminator (LF, CR, U+2028, U+2029). *)
Definition isWhiteSpace (c : N) : bool :=
  match c with
  | 9%N | 10%N | 11%N | 12%N | 13%N | 32%N | 160%N | 5760%N
  | 8192%N | 8193%N | 8194%N | 8195%N | 8196%N | 8197%N | 8198%N
  | 8199%N | 8200%N | 8201%N | 8202%N
  | 8232%N | 8233%N | 8239%N | 8287%N | 12288%N | 65279%N => true
  | _ => false
  end.

Fixpoint trimStart (l : list N) : list N :=
  match l with
  | [] => []
  | c :: rest => if isWhiteSpace c then trimStart rest else l
  end.

Definition trimEnd (l : list N) : list N := rev (trimStart (rev l)).

Definition trim (s : string) : string :=
  of_code_units (trimEnd (trimStart (code_units s))).

(** Truthiness of a string: the empty string is the only falsy one. *)
Definition truthy (s : string) : bool :=
  match s with EmptyString => false | String _ _ => true end.

(** [s.includes(sub)]: the bytes of a code unit never start inside those
    of another, so a text occurs among the code units exactly when its
    bytes occur among the bytes. *)
Fixpoint includes (s sub : string) : bool :=
  prefix sub s || match s with
                  | EmptyString => false
                  | String _ rest => includes rest sub
                  end.

Definition quote : string := String "034" EmptyString.

(** What [+=] and a template literal make of a text that may be
    [undefined]. *)
Definition ToString (v : option string) : string :=
  match v with
  | Some text => text
  | None => "undefined"
  end.

(** A text is blank when it is empty or made of white space only. *)
Definition blank (s : string) : bool :=
  forallb isWhiteSpace (code_units s).

(** ** What the outside world answers *)

(** A thrown value or rejection reason: an [Error] with its message, or
    anything else. *)
Variant Thrown : Type :=
| Error_ (message : string)
| NotAnError.

Variant Settled (A : Type) : Type :=
| fulfilled (a : A)
| rejected (e : Thrown).
Arguments fulfilled {A} a.
Arguments rejected {A} e.

(** What the host answers while a history updater runs: the two readings of
    the clock, [new Date().toISOString()] and [new Date().toLocaleString()],
    and whether [localStorage.setItem] throws (quota exhausted, storage
    disabled). *)
Record Env : Type := {
  toISOString : string;
  toLocaleString : string;
  setItem_throws : bool
}.

(** [message.serverContent]: [inputTranscription] is [None] when the
    message carries no transcription, [Some None] when it carries one
    without a [text], [Some (Some text)] otherwise. *)
Record LiveServerMessage : Type := {
  inputTranscription : option (option string);
  turnComplete : bool
}.

Record ErrorEvent : Type := { message : string }.

(** A [File]: its [name] and its [type]. *)
Record File : Type := { file_name : string; file_type : string }.

(** The [contents] of the request [transcribeAudioFile] makes: the
    [inlineData] of the audio part and the [text] of the text part;
    [None] stands for [undefined]. *)
Record AudioContents : Type := {
  inlineData_mimeType : string;
  inlineData_data : option string;
  textPart_text : string
}.

Variant AudioContextState : Type := running | closed.

(** ** The state of the application *)

(** The part of an [async] function that remains after an [await]. *)
Variant Cont : Type :=
| startRecording_after_getUserMedia
| stopRecording_after_close (language : string)
| translateText_after_generateContent (textToTranslate languageName : string)
| transcribeAudioFile_after_fileToBase64 (file : File) (language : string)
| transcribeAudioFile_after_generateContent (language : string).

(** The same, for an [await] of a promise that is already fulfilled. *)
Variant Job : Type :=
| stopRecording_after_session (language : string).

(** The item stored under the key ['transcriptionHistory']: the JSON text of
    a list of entries, the empty text, or a text that [JSON.parse] rejects.
    A text that parses to something else than a list of entries, which this
    application never writes, is not among them. *)
Variant StoredItem : Type :=
| json (entries : list HistoryEntry.t)
| empty_text
| unparsable.

(** Calls made to the outside world, in the order they are made; the last
    one stands for an exception that nobody caught. *)
Variant Call : Type :=
| getUserMedia
| live_connect
| sendRealtimeInput (media : Audio.Blob)
| session_close
| track_stop
| scriptProcessor_disconnect
| mediaStreamSource_disconnect
| audioContext_close
| generateContent (contents : string)
| fileReader_readAsDataURL (file : File)
| generateContent_audio (contents : AudioContents)
| localStorage_setItem (value : list HistoryEntry.t)
| audioPlayer_pause
| console_error (label : string)
| uncaught (e : Thrown).

(** Values of the [useState] hooks: each field holds the value most recently
    handed to its setter. *)
Record Hooks : Type := {
  recordingState : RecordingState;
  transcribedText : string;
  translatedText : string;
  targetLanguage : string;
  history : list HistoryEntry.t;
  error : option string;
  audioFile : option File
}.

(** Values of the [useRef] cells.  A cell that holds a browser object is
    [true] when it is not [null]; the audio context carries its state. *)
Record Refs : Type := {
  sessionPromiseRef : bool;
  audioContextRef : option AudioContextState;
  streamRef : bool;
  scriptProcessorRef : bool;
  mediaStreamSourceRef : bool;
  currentTranscriptionRef : string;
  recordingStateRef : RecordingState
}.

(** Everything outside React: the stored history, the target language the
    callbacks handed to [ai.live.connect] closed over, the continuations
    waiting for a promise of the host ([awaiting]) or already runnable
    ([microtasks]), the calls made so far, and every value handed to
    [setRecordingState] so far (oldest first). *)
Record World : Type := {
  localStorage : option StoredItem;
  callbacksLanguage : string;
  awaiting : list Cont;
  microtasks : list Job;
  calls : list Call;
  stateTrace : list RecordingState
}.

Record State : Type := { hooks : Hooks; refs : Refs; world : World }.

Definition Cmd : Type := State -> State.

Definition seq_cmd (c1 c2 : Cmd) : Cmd := fun s => c2 (c1 s).
Notation "c1 ;; c2" := (seq_cmd c1 c2) (at level 61, right associativity).

Definition skip : Cmd := fun s => s.

Definition whenb (b : bool) (c : Cmd) : Cmd := if b then c else skip.

Definition on_hooks (f : Hooks -> Hooks) : Cmd :=
  fun s => {| hooks := f (hooks s); refs := refs s; world := world s |}.
Definition on_refs (f : Refs -> Refs) : Cmd :=
  fun s => {| hooks := hooks s; refs := f (refs s); world := world s |}.
Definition on_world (f : World -> World) : Cmd :=
  fun s => {| hooks := hooks s; refs := refs s; world := f (world s) |}.

(** *** Setters of the hooks *)

Definition setTranscribedText (v : string) : Cmd :=
  on_hooks (fun h =>
    {| recordingState := recordingState h; transcribedText := v;
       translatedText := translatedText h; targetLanguage := targetLanguage h;
       history := history h; error := error h; audioFile := audioFile h |}).

Definition setTranslatedText (v : string) : Cmd :=
  on_hooks (fun h =>
    {| recordingState := recordingState h; transcribedText := transcribedText h;
       translatedText := v; targetLanguage := targetLanguage h;
       history := history h; error := error h; audioFile := audioFile h |}).

Definition setTargetLanguage (v : string) : Cmd :=
  on_hooks (fun h =>
    {| recordingState := recordingState h; transcribedText := transcribedText h;
       translatedText := translatedText h; targetLanguage := v;
       history := history h; error := error h; audioFile := audioFile h |}).

Definition setHistory_to (v : list HistoryEntry.t) : Cmd :=
  on_hooks (fun h =>
    {| recordingState := recordingState h; transcribedText := transcribedText h;
       translatedText := translatedText h; targetLanguage := targetLanguage h;
       history := v; error := error h; audioFile := audioFile h |}).

Definition setError (v : option string) : Cmd :=
  on_hooks (fun h =>
    {| recordingState := recordingState h; transcribedText := transcribedText h;
       translatedText := translatedText h; targetLanguage := targetLanguage h;
       history := history h; error := v; audioFile := audioFile h |}).

Definition setAudioFile (v : option File) : Cmd :=
  on_hooks (fun h =>
    {| recordingState := recordingState h; transcribedText := transcribedText h;
       translatedText := translatedText h; targetLanguage := targetLanguage h;
       history := history h; error := error h; audioFile := v |}).

(** *** Assignments to the refs *)

Definition set_sessionPromiseRef (v : bool) : Cmd :=
  on_refs (fun r =>
    {| sessionPromiseRef := v; audioContextRef := audioContextRef r;
       streamRef := streamRef r; scriptProcessorRef := scriptProcessorRef r;
       mediaStreamSourceRef := mediaStreamSourceRef r;
       currentTranscriptionRef := currentTranscriptionRef r;
       recordingStateRef := recordingStateRef r |}).

Definition set_audioContextRef (v : option AudioContextState) : Cmd :=
  on_refs (fun r =>
    {| sessionPromiseRef := sessionPromiseRef r; audioContextRef := v;
       streamRef := streamRef r; scriptProcessorRef := scriptProcessorRef r;
       mediaStreamSourceRef := mediaStreamSourceRef r;
       currentTranscriptionRef := currentTranscriptionRef r;
       recordingStateRef := recordingStateRef r |}).

Definition set_streamRef (v : bool) : Cmd :=
  on_refs (fun r =>
    {| sessionPromiseRef := sessionPromiseRef r;
       audioContextRef := audioContextRef r;
       streamRef := v; scriptProcessorRef := scriptProcessorRef r;
       mediaStreamSourceRef := mediaStreamSourceRef r;
       currentTranscriptionRef := currentTranscriptionRef r;
       recordingStateRef := recordingStateRef r |}).

Definition set_scriptProcessorRef (v : bool) : Cmd :=
  on_refs (fun r =>
    {| sessionPromiseRef := sessionPromiseRef r;
       audioContextRef := audioContextRef r;
       streamRef := streamRef r; scriptProcessorRef := v;
       mediaStreamSourceRef := mediaStreamSourceRef r;
       currentTranscriptionRef := currentTranscriptionRef r;
       recordingStateRef := recordingStateRef r |}).

Definition set_mediaStreamSourceRef (v : bool) : Cmd :=
  on_refs (fun r =>
    {| sessionPromiseRef := sessionPromiseRef r;
       audioContextRef := audioContextRef r;
       streamRef := streamRef r; scriptProcessorRef := scriptProcessorRef r;
       mediaStreamSourceRef := v;
       currentTranscriptionRef := currentTranscriptionRef r;
       recordingStateRef := recordingStateRef r |}).

Definition set_currentTranscriptionRef (v : string) : Cmd :=
  on_refs (fun r =>
    {| sessionPromiseRef := sessionPromiseRef r;
       audioContextRef := audioContextRef r;
       streamRef := streamRef r; scriptProcessorRef := scriptProcessorRef r;
       mediaStreamSourceRef := mediaStreamSourceRef r;
       currentTranscriptionRef := v;
       recordingStateRef := recordingStateRef r |}).

Definition set_recordingStateRef (v : RecordingState) : Cmd :=
  on_refs (fun r =>
    {| sessionPromiseRef := sessionPromiseRef r;
       audioContextRef := audioContextRef r;
       streamRef := streamRef r; scriptProcessorRef := scriptProcessorRef r;
       mediaStreamSourceRef := mediaStreamSourceRef r;
       currentTranscriptionRef := currentTranscriptionRef r;
       recordingStateRef := v |}).

(** *** Effects on the world *)

Definition set_localStorage (v : option StoredItem) : Cmd :=
  on_world (fun w =>
    {| localStorage := v; callbacksLanguage := callbacksLanguage w;
       awaiting := awaiting w; microtasks := microtasks w; calls := calls w;
       stateTrace := stateTrace w |}).

Definition set_callbacksLanguage (v : string) : Cmd :=
  on_world (fun w =>
    {| localStorage := localStorage w; callbacksLanguage := v;
       awaiting := awaiting w; microtasks := microtasks w; calls := calls w;
       stateTrace := stateTrace w |}).

Definition set_awaiting (v : list Cont) : Cmd :=
  on_world (fun w =>
    {| localStorage := localStorage w;
       callbacksLanguage := callbacksLanguage w;
       awaiting := v; microtasks := microtasks w; calls := calls w;
       stateTrace := stateTrace w |}).

Definition set_microtasks (v : list Job) : Cmd :=
  on_world (fun w =>
    {| localStorage := localStorage w;
       callbacksLanguage := callbacksLanguage w;
       awaiting := awaiting w; microtasks := v; calls := calls w;
       stateTrace := stateTrace w |}).

(** Make a call to the outside world. *)
Definition call (c : Call) : Cmd :=
  on_world (fun w =>
    {| localStorage := localStorage w;
       callbacksLanguage := callbacksLanguage w;
       awaiting := awaiting w; microtasks := microtasks w;
       calls := (calls w ++ [c])%list;
       stateTrace := stateTrace w |}).

Definition trace_state (v : RecordingState) : Cmd :=
  on_world (fun w =>
    {| localStorage := localStorage w;
       callbacksLanguage := callbacksLanguage w;
       awaiting := awaiting w; microtasks := microtasks w; calls := calls w;
       stateTrace := (stateTrace w ++ [v])%list |}).

Definition setRecordingState (v : RecordingState) : Cmd :=
  on_hooks (fun h =>
    {| recordingState := v; transcribedText := transcribedText h;
       translatedText := translatedText h; targetLanguage := targetLanguage h;
       history := history h; error := error h; audioFile := audioFile h |}) ;;
  trace_state v.

(** [await] a promise of the host: park the rest of the function until the
    host settles it. *)
Definition await_host (k : Cont) : Cmd :=
  fun s => set_awaiting (awaiting (world s) ++ [k])%list s.

(** [await] a promise that is already fulfilled: the rest of the function
    runs as a microtask, once the code now running has returned. *)
Definition await_fulfilled (k : Job) : Cmd :=
  fun s => set_microtasks (microtasks (world s) ++ [k])%list s.

(** ** The application ([App.tsx]) *)

(** What a history updater hands back to React: the next history, or the
    exception that escaped it. *)
Variant Updated : Type :=
| returned (s : State)
| threw (e : Thrown) (s : State).

Definition DOMException : Thrown := Error_ "QuotaExceededError".

(** The updater of [saveToHistory].  React runs an updater on the history
    current at that time, no later than the next render; here it runs at the
    call. *)
Definition saveToHistory (env : Env)
    (transcribedText translatedText targetLanguage : string) : Cmd :=
  fun s =>
    let newEntry :=
      HistoryEntry.mk (toISOString env) (toLocaleString env)
        transcribedText translatedText targetLanguage in
    let updatedHistory := firstn 20 (newEntry :: history (hooks s)) in
    (call (localStorage_setItem updatedHistory) ;;
     (if setItem_throws env
      then call (console_error "Failed to save history to localStorage")
      else set_localStorage (Some (json updatedHistory))) ;;
     setHistory_to updatedHistory) s.

(** The updater of [deleteHistoryItem]: [setItem] is not guarded, so when it
    throws the updater is left before [return newHistory]. *)
Definition deleteHistoryItem (env : Env) (id : string) (s : State) : Updated :=
  let newHistory :=
    filter (fun item => negb (String.eqb (HistoryEntry.id item) id))
      (history (hooks s)) in
  let s1 := call (localStorage_setItem newHistory) s in
  if setItem_throws env
  then threw DOMException s1
  else returned ((set_localStorage (Some (json newHistory)) ;;
                  setHistory_to newHistory) s1).

(** The effect run once on mount: load the stored history. *)
Definition loadHistory : Cmd :=
  fun s =>
    match localStorage (world s) with
    | Some (json entries) => setHistory_to entries s
    | Some unparsable =>
        call (console_error "Failed to load history from localStorage") s
    | Some empty_text | None => s
    end.

Definition errorMessage_or (fallback : string) (e : Thrown) : string :=
  match e with
  | Error_ m => m
  | NotAnError => fallback
  end.

(** [s.split(',')] *)
Fixpoint split_comma (s : string) : list string :=
  match s with
  | EmptyString => [EmptyString]
  | String c rest =>
      if Ascii.eqb c ","
      then EmptyString :: split_comma rest
      else match split_comma rest with
           | piece :: pieces => String c piece :: pieces
           | [] => [String c EmptyString]
           end
  end.

(** The [onload] handler of [fileToBase64]: [result.split(',')[1]], what the
    promise is resolved with; [None] stands for [undefined]. *)
Definition fileToBase64_onload (result : string) : option string :=
  nth_error (split_comma result) 1.

Definition has_comma (s : string) : bool :=
  existsb (Ascii.eqb ",") (list_ascii_of_string s).

Section App.

(** The table of [constants.ts]. *)
Variable TARGET_LANGUAGES : list Language.

(** [TARGET_LANGUAGES.find(l => l.code === language)?.name || language] *)
Definition selectedLanguageName (language : string) : string :=
  match find (fun l => String.eqb (code l) language) TARGET_LANGUAGES with
  | Some l => if truthy (name l) then name l else language
  | None => language
  end.

Definition prompt_for (languageName textToTranslate : string) : string :=
  "Translate the following text to " ++ languageName ++ ": "
    ++ quote ++ textToTranslate ++ quote.

(** [translateText], up to its [await]. *)
Definition translateText (textToTranslate language : string) : Cmd :=
  if negb (truthy (trim textToTranslate)) then skip
  else
    setRecordingState TRANSLATING ;;
    setTranslatedText "Translating..." ;;
    setError None ;;
    call (generateContent
            (prompt_for (selectedLanguageName language) textToTranslate)) ;;
    await_host
      (translateText_after_generateContent textToTranslate
         (selectedLanguageName language)).

(** [translateText], from the [await] on: the [try] continues, or the
    [catch] runs; the [finally] runs in both cases. *)
Definition translateText_resume (textToTranslate languageName : string)
    (response : Settled string) (env : Env) : Cmd :=
  match response with
  | fulfilled translation =>
      setTranslatedText translation ;;
      saveToHistory env textToTranslate translation languageName
  | rejected e =>
      call (console_error "Translation error:") ;;
      setError
        (Some ("Translation failed: "
                 ++ errorMessage_or
                      "An unknown error occurred during translation." e)) ;;
      setTranslatedText ""
  end ;;
  setRecordingState IDLE.

(** [stopRecording], last part: flush the transcript. *)
Definition stopRecording_flush (language : string) : Cmd :=
  fun s =>
    if truthy (trim (currentTranscriptionRef (refs s))) then
      let finalText := currentTranscriptionRef (refs s) in
      (set_currentTranscriptionRef "" ;;
       setTranscribedText finalText ;;
       translateText finalText language) s
    else setRecordingState IDLE s.

(** [stopRecording], after [await audioContextRef.current.close()]. *)
Definition stopRecording_closed (language : string) : Cmd :=
  set_audioContextRef None ;; stopRecording_flush language.

(** [stopRecording], the release of the stream and of the audio nodes. *)
Definition stopRecording_release (language : string) : Cmd :=
  (fun s => whenb (streamRef (refs s))
              (call track_stop ;; set_streamRef false) s) ;;
  (fun s => whenb (scriptProcessorRef (refs s))
              (call scriptProcessor_disconnect ;;
               set_scriptProcessorRef false) s) ;;
  (fun s => whenb (mediaStreamSourceRef (refs s))
              (call mediaStreamSource_disconnect ;;
               set_mediaStreamSourceRef false) s) ;;
  (fun s => match audioContextRef (refs s) with
            | Some running =>
                (call audioContext_close ;;
                 await_host (stopRecording_after_close language)) s
            | Some closed | None => stopRecording_flush language s
            end).

(** [stopRecording], after [await sessionPromiseRef.current]. *)
Definition stopRecording_session (language : string) : Cmd :=
  call session_close ;;
  set_sessionPromiseRef false ;;
  stopRecording_release language.

(** [stopRecording], up to its first [await].  The session promise is
    fulfilled as soon as the session is open, so the [await] on it only
    defers the rest to a microtask. *)
Definition stopRecording (language : string) : Cmd :=
  fun s =>
    if negb (RecordingState_eqb (recordingStateRef (refs s)) RECORDING)
    then s
    else
      (setRecordingState STOPPING ;;
       (fun s => if sessionPromiseRef (refs s)
                 then await_fulfilled (stopRecording_after_session language) s
                 else stopRecording_release language s)) s.

(** The callbacks handed to [ai.live.connect] are those of the render in
    which recording was started; the [stopRecording] they reach closed
    over the target language of that render. *)
Definition handleMessage (m : LiveServerMessage) : Cmd :=
  (fun s =>
     match inputTranscription m with
     | Some text =>
         let current :=
           currentTranscriptionRef (refs s) ++ ToString text in
         (set_currentTranscriptionRef current ;;
          setTranscribedText current) s
     | None => s
     end) ;;
  (fun s => whenb (turnComplete m)
              (stopRecording (callbacksLanguage (world s))) s).

Definition handleError (e : ErrorEvent) : Cmd :=
  call (console_error "Live session error:") ;;
  setError (Some ("An error occurred: " ++ message e ++ ". Please try again.")) ;;
  (fun s => stopRecording (callbacksLanguage (world s)) s) ;;
  setRecordingState ERROR.

Definition clearAudioFile : Cmd :=
  setAudioFile None ;; call audioPlayer_pause.

Definition handleFileChange (file : option File) : Cmd :=
  match file with
  | Some f =>
      setError None ;; setTranscribedText "" ;; setTranslatedText "" ;;
      setAudioFile (Some f)
  | None => skip
  end.

(** [transcribeAudioFile], up to [await fileToBase64(audioFile)]: the
    promise of [fileToBase64] starts the read of the file.  The rest of the
    function keeps the file and the target language of the render in which
    the button was clicked. *)
Definition transcribeAudioFile : Cmd :=
  fun s =>
    match audioFile (hooks s) with
    | None => s
    | Some file =>
        (setRecordingState TRANSLATING ;;
         setTranscribedText "Transcribing audio file..." ;;
         setTranslatedText "" ;;
         setError None ;;
         call (fileReader_readAsDataURL file) ;;
         await_host
           (transcribeAudioFile_after_fileToBase64 file
              (targetLanguage (hooks s)))) s
    end.

(** The [catch] of [transcribeAudioFile]. *)
Definition transcribeAudioFile_catch (e : Thrown) : Cmd :=
  call (console_error "File transcription error:") ;;
  setError
    (Some ("File transcription failed: "
             ++ errorMessage_or "An unknown error occurred." e)) ;;
  setTranscribedText "" ;;
  setRecordingState ERROR.

(** [transcribeAudioFile], after [await fileToBase64(audioFile)]: the
    request is made, or the [catch] runs. *)
Definition transcribeAudioFile_read (file : File) (language : string)
    (audioData : Settled (option string)) : Cmd :=
  match audioData with
  | fulfilled data =>
      call (generateContent_audio
              {| inlineData_mimeType := file_type file;
                 inlineData_data := data;
                 textPart_text := "Transcribe the audio." |}) ;;
      await_host (transcribeAudioFile_after_generateContent language)
  | rejected e => transcribeAudioFile_catch e
  end.

(** [transcribeAudioFile], after [await generateContent]; the call of
    [translateText] is not awaited. *)
Definition transcribeAudioFile_resume (language : string)
    (response : Settled string) : Cmd :=
  match response with
  | fulfilled transcription =>
      setTranscribedText transcription ;;
      translateText transcription language
  | rejected e => transcribeAudioFile_catch e
  end.

(** [startRecording], up to its [await]. *)
Definition startRecording : Cmd :=
  fun s =>
    if RecordingState_eqb (recordingState (hooks s)) RECORDING
    then stopRecording (targetLanguage (hooks s)) s
    else
      ((match audioFile (hooks s) with
        | Some _ => clearAudioFile
        | None => skip
        end) ;;
       setRecordingState REQUESTING_PERMISSION ;;
       setError None ;;
       setTranscribedText "" ;;
       setTranslatedText "" ;;
       set_currentTranscriptionRef "" ;;
       set_callbacksLanguage (targetLanguage (hooks s)) ;;
       call getUserMedia ;;
       await_host startRecording_after_getUserMedia) s.

(** [startRecording], after [await getUserMedia]. *)
Definition startRecording_resume (stream : Settled unit) : Cmd :=
  match stream with
  | fulfilled _ =>
      set_streamRef true ;; call live_connect ;; set_sessionPromiseRef true
  | rejected err =>
      call (console_error "Error starting recording:") ;;
      (if includes (errorMessage_or "An unknown error occurred." err)
            "Permission denied"
       then setError (Some "Microphone permission denied. Please allow microphone access in your browser settings.")
       else setError
              (Some ("Failed to start recording: "
                       ++ errorMessage_or "An unknown error occurred." err))) ;;
      setRecordingState ERROR
  end.

(** The [onopen] callback. *)
Definition onopen : Cmd :=
  setRecordingState RECORDING ;;
  set_audioContextRef (Some running) ;;
  set_mediaStreamSourceRef true ;;
  set_scriptProcessorRef true.

(** The [onaudioprocess] callback of the script processor. *)
Definition onaudioprocess (inputData : list spec_float) : Cmd :=
  call (sendRealtimeInput (Audio.createBlob inputData)).

End App.

(** ** The event loop

    One task of the browser's event loop: a callback runs to completion, the
    microtasks it left run, then React renders and the effect that mirrors
    [recordingState] into [recordingStateRef] runs. *)

Variant Event : Type :=
| click_RecordButton
| change_LanguageSelector (languageCode : string)
| change_fileInput (file : option File)
| click_removeFile
| click_transcribeFile
| fileReader_onload (result : string)
| fileReader_onerror
| generateContent_audio_settled (response : Settled string)
| click_deleteHistoryItem (id : string) (env : Env)
| getUserMedia_settled (stream : Settled unit)
| session_onopen
| session_onmessage (m : LiveServerMessage)
| session_onerror (e : ErrorEvent)
| script_onaudioprocess (inputData : list spec_float)
| audioContext_close_fulfilled
| generateContent_settled (response : Settled string) (env : Env).

(** [isDisabled] of [RecordButton]. *)
Definition isDisabled (st : RecordingState) : bool :=
  RecordingState_eqb st STOPPING
  || RecordingState_eqb st REQUESTING_PERMISSION
  || RecordingState_eqb st TRANSLATING.

(** [isProcessing] of [App]. *)
Definition isProcessing (st : RecordingState) : bool :=
  negb (RecordingState_eqb st IDLE) && negb (RecordingState_eqb st ERROR).

Definition is_after_getUserMedia (k : Cont) : bool :=
  match k with startRecording_after_getUserMedia => true | _ => false end.
Definition is_after_close (k : Cont) : bool :=
  match k with stopRecording_after_close _ => true | _ => false end.
Definition is_after_generateContent (k : Cont) : bool :=
  match k with translateText_after_generateContent _ _ => true | _ => false end.
Definition is_after_fileToBase64 (k : Cont) : bool :=
  match k with transcribeAudioFile_after_fileToBase64 _ _ => true | _ => false end.
Definition is_after_generateContent_audio (k : Cont) : bool :=
  match k with transcribeAudioFile_after_generateContent _ => true | _ => false end.

(** The oldest parked continuation of a kind, and the others. *)
Fixpoint take_first (p : Cont -> bool) (l : list Cont)
  : option (Cont * list Cont) :=
  match l with
  | [] => None
  | k :: rest =>
      if p k then Some (k, rest)
      else match take_first p rest with
           | Some (k', rest') => Some (k', k :: rest')
           | None => None
           end
  end.

Section Loop.

Variable TARGET_LANGUAGES : list Language.

(** Run a parked continuation with what the host settled its promise to. *)
Definition settle (p : Cont -> bool) (run : Cont -> Cmd) : Cmd :=
  fun s =>
    match take_first p (awaiting (world s)) with
    | Some (k, rest) => (set_awaiting rest ;; run k) s
    | None => s
    end.

(** The callback of an event.  A control that is disabled, or a promise
    that nobody awaits, calls nothing.  The read of a file settles the
    promise of [fileToBase64], through [onload] or through [onerror], whose
    argument is an event and not an [Error].  An exception that escapes a
    history updater is logged as [uncaught]; what React does with it (it
    gives up the render and, without an error boundary, unmounts the
    application) is not followed further. *)
Definition dispatch (ev : Event) : Cmd :=
  match ev with
  | click_RecordButton =>
      fun s => if isDisabled (recordingState (hooks s)) then s
               else startRecording TARGET_LANGUAGES s
  | change_LanguageSelector c =>
      fun s => if isProcessing (recordingState (hooks s)) then s
               else setTargetLanguage c s
  | change_fileInput file =>
      fun s => if isProcessing (recordingState (hooks s)) then s
               else handleFileChange file s
  | click_removeFile => clearAudioFile
  | click_transcribeFile =>
      fun s => if isProcessing (recordingState (hooks s)) then s
               else transcribeAudioFile s
  | fileReader_onload result =>
      settle is_after_fileToBase64
        (fun k => match k with
                  | transcribeAudioFile_after_fileToBase64 file language =>
                      transcribeAudioFile_read file language
                        (fulfilled (fileToBase64_onload result))
                  | _ => skip
                  end)
  | fileReader_onerror =>
      settle is_after_fileToBase64
        (fun k => match k with
                  | transcribeAudioFile_after_fileToBase64 file language =>
                      transcribeAudioFile_read file language
                        (rejected NotAnError)
                  | _ => skip
                  end)
  | generateContent_audio_settled response =>
      settle is_after_generateContent_audio
        (fun k => match k with
                  | transcribeAudioFile_after_generateContent language =>
                      transcribeAudioFile_resume TARGET_LANGUAGES language
                        response
                  | _ => skip
                  end)
  | click_deleteHistoryItem id env =>
      fun s => match deleteHistoryItem env id s with
               | returned s' => s'
               | threw e s' => call (uncaught e) s'
               end
  | getUserMedia_settled stream =>
      settle is_after_getUserMedia (fun _ => startRecording_resume stream)
  | session_onopen => onopen
  | session_onmessage m => handleMessage TARGET_LANGUAGES m
  | session_onerror e => handleError TARGET_LANGUAGES e
  | script_onaudioprocess inputData => onaudioprocess inputData
  | audioContext_close_fulfilled =>
      settle is_after_close
        (fun k => match k with
                  | stopRecording_after_close language =>
                      stopRecording_closed TARGET_LANGUAGES language
                  | _ => skip
                  end)
  | generateContent_settled response env =>
      settle is_after_generateContent
        (fun k => match k with
                  | translateText_after_generateContent text languageName =>
                      translateText_resume text languageName response env
                  | _ => skip
                  end)
  end.

Definition run_job (j : Job) : Cmd :=
  match j with
  | stopRecording_after_session language =>
      stopRecording_session TARGET_LANGUAGES language
  end.

(** Run the microtasks the callback left behind. *)
Definition drain : Cmd :=
  fun s =>
    fold_left (fun s' j => run_job j s') (microtasks (world s))
      (set_microtasks [] s).

(** Render, then [recordingStateRef.current = recordingState]. *)
Definition commit : Cmd :=
  fun s => set_recordingStateRef (recordingState (hooks s)) s.

Definition handle (ev : Event) : Cmd := dispatch ev ;; drain ;; commit.

Definition run (evs : list Event) (s : State) : State :=
  fold_left (fun s' ev => handle ev s') evs s.

End Loop.

(** The application once mounted, over what [localStorage] holds. *)
Definition mounted (stored : option StoredItem) : State :=
  loadHistory
    {| hooks := {| recordingState := IDLE; transcribedText := "";
                   translatedText := ""; targetLanguage := "es";
                   history := []; error := None; audioFile := None |};
       refs := {| sessionPromiseRef := false; audioContextRef := None;
                  streamRef := false; scriptProcessorRef := false;
                  mediaStreamSourceRef := false;
                  currentTranscriptionRef := "";
                  recordingStateRef := IDLE |};
       world := {| localStorage := stored; callbacksLanguage := "es";
                   awaiting := []; microtasks := []; calls := [];
                   stateTrace := [] |} |}.

(** Append the entries of a list to the history store, one after the other,
    each under its own answers of the host. *)
Definition appendAll (entries : list (Env * (string * string * string)))
    (s : State) : State :=
  fold_left
    (fun s' e =>
       let '(env, (transcribed, translated, language)) := e in
       saveToHistory env transcribed translated language s')
    entries s.

(** The entry [saveToHistory] builds. *)
Definition entry_of (e : Env * (string * string * string)) : HistoryEntry.t :=
  let '(env, (transcribed, translated, language)) := e in
  HistoryEntry.mk (toISOString env) (toLocaleString env)
    transcribed translated language.

(** The translation requests among the calls made. *)
Definition requests (cs : list Call) : list string :=
  flat_map (fun c => match c with
                     | generateContent contents => [contents]
                     | _ => []
                     end) cs.

(** The steps of the release sequence among the calls made. *)
Definition releases (cs : list Call) : list Call :=
  filter (fun c => match c with
                   | session_close | track_stop | scriptProcessor_disconnect
                   | mediaStreamSource_disconnect | audioContext_close => true
                   | _ => false
                   end) cs.

(** A small language table to run scenarios with. *)
Definition sample_languages : list Language :=
  [ {| code := "es"; name := "Spanish" |};
    {| code := "fr"; name := "French" |} ].

Definition sample_env (iso : string) (throws : bool) : Env :=
  {| toISOString := iso; toLocaleString := "11/1/2026, 9:00:00 AM";
     setItem_throws := throws |}.

(** A session that is recording, as [startRecording] and [onopen] leave it. *)
Definition recording_session (transcript : string) : State :=
  run sample_languages
    [ click_RecordButton; getUserMedia_settled (fulfilled tt); session_onopen;
      session_onmessage {| inputTranscription := Some (Some transcript);
                           turnComplete := false |} ]
    (mounted None).

(** The session state on display after each event of a run. *)
Fixpoint observe (TARGET_LANGUAGES : list Language) (evs : list Event)
    (s : State) : list RecordingState :=
  match evs with
  | [] => []
  | ev :: rest =>
      let s' := handle TARGET_LANGUAGES ev s in
      recordingState (hooks s') :: observe TARGET_LANGUAGES rest s'
  end.

(** Twenty-five appends, each at its own clock reading. *)
Definition numbered_entry (k : nat) : Env * (string * string * string) :=
  (sample_env (String (ascii_of_nat (65 + k)) "") false,
   ("Hello", "Hola", "Spanish")).

Definition sample_entries : list (Env * (string * string * string)) :=
  map numbered_entry (seq 0 25).

Definition stored_entry : HistoryEntry.t :=
  HistoryEntry.mk "2026-11-01T09:00:00.000Z" "11/1/2026, 9:00:00 AM"
    "Hello" "Hola" "Spanish".

(** The clock readings of a list of appends. *)
Definition readings (entries : list (Env * (string * string * string)))
  : list string :=
  map (fun e => toISOString (fst e)) entries.

(** Commands that leave the queue of microtasks alone. *)
Definition keeps_microtasks (c : Cmd) : Prop :=
  forall s, microtasks (world (c s)) = microtasks (world s).

(** The scenario of a short dictation: start, two transcript fragments, the
    end-of-turn signal, the acknowledgement of the audio context, the
    answer of the translation call. *)
Definition fragment (text : string) : Event :=
  session_onmessage {| inputTranscription := Some (Some text);
                       turnComplete := false |}.

Definition end_of_turn : Event :=
  session_onmessage {| inputTranscription := None; turnComplete := true |}.

Definition hello_world (response : Settled string) (env : Env) : list Event :=
  [ click_RecordButton; getUserMedia_settled (fulfilled tt); session_onopen;
    fragment "Hello"; fragment " world"; end_of_turn;
    audioContext_close_fulfilled; generateContent_settled response env ].

(** ** The receiving end of the audio envelope

    What a receiver does with the [data] of a blob: [atob], then the
    little-endian [Int16Array] view of the bytes. *)

Fixpoint index_of (c : ascii) (l : list ascii) : Z :=
  match l with
  | [] => 0
  | x :: rest => if Ascii.eqb c x then 0 else 1 + index_of c rest
  end.

Definition base64_value (c : ascii) : Z := index_of c Audio.base64_alphabet.

Fixpoint atob (s : string) : list Z :=
  match s with
  | String a (String b (String c (String d rest))) =>
      let byte0 := (base64_value a * 4 + base64_value b / 16)%Z in
      let byte1 := ((base64_value b mod 16) * 16 + base64_value c / 4)%Z in
      let byte2 := ((base64_value c mod 4) * 64 + base64_value d)%Z in
      if Ascii.eqb c "=" then [byte0]
      else if Ascii.eqb d "=" then [byte0; byte1]
      else byte0 :: byte1 :: byte2 :: atob rest
  | _ => []
  end.

Fixpoint int16s_of_bytes (bytes : list Z) : list Z :=
  match bytes with
  | lo :: hi :: rest => Audio.wrap16 (lo + 256 * hi) :: int16s_of_bytes rest
  | _ => []
  end.

Definition decodeBlob (b : Audio.Blob) : list Z :=
  int16s_of_bytes (atob (Audio.data b)).

Definition is_byte (b : Z) : Prop := (0 <= b < 256)%Z.

(** ** Vocabulary of the further properties *)

(** The release steps [stopRecording] owes for the refs that are set. *)
Definition expected_releases (r : Refs) : list Call :=
  ((if sessionPromiseRef r then [session_close] else [])
     ++ (if streamRef r then [track_stop] else [])
     ++ (if scriptProcessorRef r then [scriptProcessor_disconnect] else [])
     ++ (if mediaStreamSourceRef r then [mediaStreamSource_disconnect] else [])
     ++ (match audioContextRef r with
         | Some running => [audioContext_close]
         | _ => []
         end))%list.

(** The fragments of a list, joined in order. *)
Definition joined (texts : list string) : string :=
  fold_right append "" texts.

(** The history holds at most twenty entries. *)
Definition bounded (s : State) : Prop :=
  (List.length (history (hooks s)) <= 20)%nat.

(** A command that leaves the history alone. *)
Definition keeps_history (c : Cmd) : Prop :=
  forall s, history (hooks (c s)) = history (hooks s).

(** The result of a history updater, thrown or returned. *)
Definition updated_state (u : Updated) : State :=
  match u with
  | returned s => s
  | threw _ s => s
  end.

(** A command that keeps the history within twenty entries. *)
Definition keeps_bounded (c : Cmd) : Prop :=
  forall s, bounded s -> bounded (c s).

(** What [localStorage] may hold at mount for the bound to start true. *)
Definition stored_bounded (stored : option StoredItem) : Prop :=
  match stored with
  | Some (json entries) => (List.length entries <= 20)%nat
  | Some empty_text | Some unparsable | None => True
  end.

(** The events after which the history may differ: a removal, and the
    answer of a translation call that succeeded. *)
Definition writes_history (ev : Event) : bool :=
  match ev with
  | click_deleteHistoryItem _ _ => true
  | generateContent_settled (fulfilled _) _ => true
  | _ => false
  end.

(** A tabulation, the ideographic space U+3000, the line separator U+2028
    and a space. *)
Definition ideographic_blank : string :=
  of_code_units [9; 12288; 8232; 32]%N.


(** The request [transcribeAudioFile] makes for a file, once the reader has
    handed over [result]. *)
Definition transcription_request (file : File) (result : string) : Call :=
  generateContent_audio
    {| inlineData_mimeType := file_type file;
       inlineData_data := fileToBase64_onload result;
       textPart_text := "Transcribe the audio." |}.

Definition sample_file : File :=
  {| file_name := "talk.mp3"; file_type := "audio/mpeg" |}.

(** A file is chosen and transcribed, and the transcription translated. *)
Definition talk_transcribed (transcription : string)
    (response : Settled string) (env : Env) : list Event :=
  [ change_fileInput (Some sample_file); click_transcribeFile;
    fileReader_onload "data:audio/mpeg;base64,SUQz";
    generateContent_audio_settled (fulfilled transcription);
    generateContent_settled response env ].

(** The application with a file loaded. *)
Definition file_loaded : State :=
  run sample_languages [change_fileInput (Some sample_file)] (mounted None).

(** * Properties *)

(** ** Audio encoder *)

Section AudioFacts.

Local Open Scope Z_scope.

Lemma truncate_is_truncation (q : Q) : Audio.truncation_of q (Audio.truncate q).
Proof.
  unfold Audio.truncation_of, Audio.truncate.
  pose proof (Qfloor_le q) as Hlo. pose proof (Qlt_floor q) as Hhi.
  pose proof (Qfloor_le (- q)) as Hlo'. pose proof (Qlt_floor (- q)) as Hhi'.
  destruct (Qle_bool 0 q) eqn:Hsign.
  - apply Qle_bool_iff in Hsign. split; intros Hq.
    + split; assumption.
    + assert (Hz : (q == 0)%Q) by lra.
      assert (Hf : Qfloor q = 0) by (rewrite Hz; reflexivity).
      rewrite Hf. change (inject_Z (0 - 1)) with (- (1))%Q.
      change (inject_Z 0) with 0%Q. split; lra.
  - assert (Hneg : (q < 0)%Q).
    { apply Qnot_le_lt. intros Hc. apply Qle_bool_iff in Hc. congruence. }
    split; intros Hq; [lra|].
    rewrite inject_Z_plus in Hhi'.
    unfold Z.sub. rewrite inject_Z_plus, !inject_Z_opp.
    change (inject_Z 1) with 1%Q in *.
    set (f := inject_Z (Qfloor (- q))) in *. split; lra.
Qed.

Lemma ToInt16_range (x : Audio.Number) : -32768 <= Audio.ToInt16 x < 32768.
Proof.
  destruct x as [| |q]; simpl; try lia.
  pose proof (Z.mod_pos_bound (Audio.truncate q) 65536 ltac:(lia)).
  destruct (32768 <=? Audio.truncate q mod 65536) eqn:E;
    [apply Z.leb_le in E | apply Z.leb_gt in E]; lia.
Qed.

Lemma ToInt16_congruent (q : Q) :
  (Audio.ToInt16 (Audio.Finite q) - Audio.truncate q) mod 65536 = 0.
Proof.
  simpl. set (t := Audio.truncate q).
  destruct (32768 <=? t mod 65536).
  - replace (t mod 65536 - 65536 - t) with (t mod 65536 - t + (-1) * 65536) by lia.
    rewrite Z.mod_add by lia.
    rewrite Zminus_mod, Z.mod_mod, Z.sub_diag by lia. reflexivity.
  - rewrite Zminus_mod, Z.mod_mod, Z.sub_diag by lia. reflexivity.
Qed.

Lemma ToInt16_in_range (q : Q) :
  -32768 <= Audio.truncate q < 32768 ->
  Audio.ToInt16 (Audio.Finite q) = Audio.truncate q.
Proof.
  intros Hr. simpl. set (t := Audio.truncate q) in *.
  destruct (Z_lt_le_dec t 0) as [Hn|Hp].
  - assert (Hm : t mod 65536 = t + 65536).
    { symmetry. apply Z.mod_unique with (q := -1); lia. }
    rewrite Hm. destruct (32768 <=? t + 65536) eqn:E;
      [apply Z.leb_le in E | apply Z.leb_gt in E]; lia.
  - rewrite Z.mod_small by lia.
    destruct (32768 <=? t) eqn:E;
      [apply Z.leb_le in E | apply Z.leb_gt in E]; lia.
Qed.

End AudioFacts.

(** C4, as amended.  For every input buffer, [createBlob] stores for each
    sample [s] a signed 16-bit integer [v]: it is [0] when [s] is NaN or
    infinite; otherwise it is congruent modulo [2^16] to [s * 32768] with
    its fractional part dropped (truncation toward zero, not rounding to
    nearest), and equal to it when that fits in 16 bits.  Nothing clamps:
    the value that does not fit wraps around. *)
Theorem createBlob_truncates_and_wraps
    (data : list spec_float) (i : nat) (s : spec_float) :
  nth_error data i = Some s ->
  exists v : Z,
    nth_error (Audio.fillInt16 data) i = Some v /\
    (-32768 <= v < 32768)%Z /\
    match Audio.scaled s with
    | None => v = 0%Z
    | Some x =>
        exists t : Z,
          Audio.truncation_of x t /\
          ((v - t) mod 65536 = 0)%Z /\
          ((-32768 <= t < 32768)%Z -> v = t)
    end.
Proof.
  intros Hs. exists (Audio.int16_of_sample s).
  split; [unfold Audio.fillInt16; apply map_nth_error; exact Hs|].
  split; [apply ToInt16_range|].
  unfold Audio.scaled, Audio.int16_of_sample.
  destruct (Audio.times32768 (Audio.toNumber s)) as [| |q]; try reflexivity.
  exists (Audio.truncate q).
  split; [apply truncate_is_truncation|].
  split; [apply ToInt16_congruent | apply ToInt16_in_range].
Qed.

Lemma createBlob_truncates_and_wraps_witness :
  nth_error [Audio.half; Audio.one] 1 = Some Audio.one /\
  exists v : Z,
    nth_error (Audio.fillInt16 [Audio.half; Audio.one]) 1 = Some v /\
    (-32768 <= v < 32768)%Z /\
    match Audio.scaled Audio.one with
    | None => v = 0%Z
    | Some x =>
        exists t : Z,
          Audio.truncation_of x t /\
          ((v - t) mod 65536 = 0)%Z /\
          ((-32768 <= t < 32768)%Z -> v = t)
    end.
Proof.
  split; [reflexivity|].
  apply (createBlob_truncates_and_wraps [Audio.half; Audio.one] 1 Audio.one).
  reflexivity.
Defined.

(** C4, as stated, fails: the sample [0.75 / 32768] is stored as [0], while
    [round(s * 32768)] is [1]. *)
Lemma createBlob_does_not_round :
  (exists x : Q, Audio.scaled Audio.three_quarters_lsb = Some x /\ (x == 3 # 4)%Q) /\
  Audio.fillInt16 [Audio.three_quarters_lsb] = [0%Z] /\
  map Audio.spec_int16_of_sample [Audio.three_quarters_lsb] = [1%Z] /\
  ~ (forall data : list spec_float,
       Audio.fillInt16 data = map Audio.spec_int16_of_sample data).
Proof.
  split; [eexists; split; [reflexivity | reflexivity]|].
  split; [reflexivity|]. split; [reflexivity|].
  intros H. specialize (H [Audio.three_quarters_lsb]).
  vm_compute in H. discriminate H.
Qed.

Example samples_are_binary32 :
  forallb (valid_binary 24 128)
    [Audio.one; Audio.half; Audio.minus_one; Audio.three_quarters_lsb] = true.
Proof. reflexivity. Qed.

Example createBlob_half_minus_one :
  Audio.fillInt16 [Audio.half; Audio.minus_one; S754_nan] = [16384; -32768; 0]%Z
  /\ Audio.data (Audio.createBlob [Audio.half; Audio.minus_one]) = "AEAAgA==".
Proof. split; reflexivity. Qed.

(** Out of range, the stored value wraps: [1.0] becomes [-32768]. *)
Example createBlob_one_wraps :
  Audio.fillInt16 [Audio.one] = [-32768]%Z.
Proof. reflexivity. Qed.

(** ** Strings *)

Section StringFacts.

Ltac ndiv := cbv beta in *; zify; Z.to_euclidean_division_equations; lia.

(** The bytes of a code unit are read back as that code unit. *)
Lemma code_units_of_code_unit (c : N) (rest : string) :
  (c < 65536)%N ->
  code_units (bytes_of_code_unit c ++ rest) = c :: code_units rest.
Proof.
  intros H. unfold bytes_of_code_unit.
  destruct (c <? 128)%N eqn:C1.
  - apply N.ltb_lt in C1. cbn [append code_units].
    rewrite N_ascii_embedding by lia.
    apply N.ltb_lt in C1. rewrite C1. reflexivity.
  - apply N.ltb_ge in C1. destruct (c <? 2048)%N eqn:C2.
    + apply N.ltb_lt in C2. cbn [append code_units]. unfold continuation.
      rewrite !N_ascii_embedding by ndiv.
      replace (192 + c / 64 <? 128)%N with false
        by (symmetry; apply N.ltb_ge; ndiv).
      replace (194 <=? 192 + c / 64)%N with true
        by (symmetry; apply N.leb_le; ndiv).
      replace (192 + c / 64 <? 224)%N with true
        by (symmetry; apply N.ltb_lt; ndiv).
      replace (128 <=? 128 + c mod 64)%N with true
        by (symmetry; apply N.leb_le; ndiv).
      replace (128 + c mod 64 <? 192)%N with true
        by (symmetry; apply N.ltb_lt; ndiv).
      cbn [andb]. f_equal. ndiv.
    + apply N.ltb_ge in C2. cbn [append code_units]. unfold continuation.
      rewrite !N_ascii_embedding by ndiv.
      replace (224 + c / 4096 <? 128)%N with false
        by (symmetry; apply N.ltb_ge; ndiv).
      replace (194 <=? 224 + c / 4096)%N with true
        by (symmetry; apply N.leb_le; ndiv).
      replace (224 + c / 4096 <? 224)%N with false
        by (symmetry; apply N.ltb_ge; ndiv).
      replace (224 <=? 224 + c / 4096)%N with true
        by (symmetry; apply N.leb_le; ndiv).
      replace (224 + c / 4096 <? 240)%N with true
        by (symmetry; apply N.ltb_lt; ndiv).
      replace (128 <=? 128 + (c / 64) mod 64)%N with true
        by (symmetry; apply N.leb_le; ndiv).
      replace (128 + (c / 64) mod 64 <? 192)%N with true
        by (symmetry; apply N.ltb_lt; ndiv).
      replace (128 <=? 128 + c mod 64)%N with true
        by (symmetry; apply N.leb_le; ndiv).
      replace (128 + c mod 64 <? 192)%N with true
        by (symmetry; apply N.ltb_lt; ndiv).
      cbn [andb].
      assert (E : ((224 + c / 4096 - 224) * 4096
                   + (128 + (c / 64) mod 64 - 128) * 64
                   + (128 + c mod 64 - 128) = c)%N) by ndiv.
      rewrite E.
      replace (2048 <=? c)%N with true by (symmetry; apply N.leb_le; lia).
      reflexivity.
Qed.

(** A JavaScript string, given by its code units, is read back from its
    bytes. *)
Lemma code_units_of_code_units (l : list N) :
  Forall (fun c => (c < 65536)%N) l -> code_units (of_code_units l) = l.
Proof.
  induction 1 as [|c l Hc Hl IH]; [reflexivity|].
  cbn [of_code_units]. rewrite code_units_of_code_unit by exact Hc.
  rewrite IH. reflexivity.
Qed.

(** [trim] and [blank] on a JavaScript string work on its code units. *)
Lemma trim_of_code_units (l : list N) :
  Forall (fun c => (c < 65536)%N) l ->
  trim (of_code_units l) = of_code_units (trimEnd (trimStart l))
  /\ blank (of_code_units l) = forallb isWhiteSpace l.
Proof.
  intros H. unfold trim, blank. rewrite (code_units_of_code_units l H).
  split; reflexivity.
Qed.

Lemma trimStart_all (l : list N) :
  forallb isWhiteSpace l = true -> trimStart l = [].
Proof.
  induction l as [|c r IH]; simpl; [reflexivity|].
  intros H. apply andb_prop in H. destruct H as [Hc Hr].
  rewrite Hc. apply IH, Hr.
Qed.

Lemma trimStart_not_all (l : list N) :
  forallb isWhiteSpace l = false ->
  exists c r, trimStart l = c :: r /\ isWhiteSpace c = false.
Proof.
  induction l as [|c r IH]; simpl; [discriminate|].
  destruct (isWhiteSpace c) eqn:Hc; simpl.
  - exact IH.
  - intros _. exists c, r. split; [reflexivity | exact Hc].
Qed.

Lemma trimStart_ends_black (l : list N) (c : N) :
  isWhiteSpace c = false ->
  exists c' r', trimStart (l ++ [c]) = c' :: r'.
Proof.
  intros Hc. induction l as [|a l IH]; simpl.
  - rewrite Hc. eauto.
  - destruct (isWhiteSpace a); [exact IH | eauto].
Qed.

Lemma of_code_units_truthy (c : N) (l : list N) :
  truthy (of_code_units (c :: l)) = true.
Proof.
  simpl. unfold bytes_of_code_unit.
  destruct (c <? 128)%N; [reflexivity|].
  destruct (c <? 2048)%N; reflexivity.
Qed.

Lemma trim_blank (s : string) : blank s = true -> trim s = "".
Proof.
  unfold blank, trim. intros H. rewrite (trimStart_all _ H). reflexivity.
Qed.

Lemma trim_not_blank (s : string) : blank s = false -> truthy (trim s) = true.
Proof.
  unfold blank, trim. intros H.
  destruct (trimStart_not_all _ H) as (c & r & Hs & Hc).
  rewrite Hs. unfold trimEnd. simpl rev.
  destruct (trimStart_ends_black (rev r) c Hc) as (c' & r' & E).
  rewrite E. simpl rev.
  destruct (rev r' ++ [c'])%list as [|x l] eqn:R.
  - destruct (rev r'); discriminate R.
  - apply of_code_units_truthy.
Qed.

(** [!text.trim()] holds exactly of the blank texts. *)
Lemma trim_truthy (s : string) : truthy (trim s) = negb (blank s).
Proof.
  destruct (blank s) eqn:B.
  - rewrite (trim_blank s B). reflexivity.
  - apply trim_not_blank, B.
Qed.

End StringFacts.

(** U+00A0, U+2028, U+3000 and U+FEFF are stripped like the space; U+200B,
    a format character, is not. *)
Example trim_examples :
  trim "  Hello world " = "Hello world" /\ trim "" = "" /\
  blank (String "009" (String "010" " ")) = true /\ blank " x " = false /\
  code_units (String "227" (String "128" (String "128" "Hello")))
    = [12288; 72; 101; 108; 108; 111]%N /\
  trim (String "227" (String "128" (String "128" "Hello"))
          ++ String "194" (String "160" EmptyString)) = "Hello" /\
  blank (of_code_units [160; 8232; 12288; 65279]%N) = true /\
  blank (of_code_units [8203]%N) = false.
Proof. repeat split; reflexivity. Qed.

(** ** History store *)

#[local] Arguments firstn : simpl never.

Section HistoryFacts.

Lemma saveToHistory_history env a b c s :
  history (hooks (saveToHistory env a b c s)) =
  firstn 20 (HistoryEntry.mk (toISOString env) (toLocaleString env) a b c
               :: history (hooks s)).
Proof.
  unfold saveToHistory, seq_cmd. destruct (setItem_throws env); reflexivity.
Qed.

Lemma firstn_app_firstn {A : Type} (n : nat) (l1 l2 : list A) :
  firstn n (l1 ++ firstn n l2) = firstn n (l1 ++ l2).
Proof.
  rewrite !firstn_app, firstn_firstn.
  f_equal. f_equal. lia.
Qed.

Lemma In_firstn {A : Type} (n : nat) : forall (l : list A) (x : A),
  In x (firstn n l) -> In x l.
Proof.
  induction n as [|n IH]; intros [|y l] x H;
    try rewrite firstn_0 in H; try rewrite firstn_nil in H;
    try contradiction.
  rewrite firstn_cons in H. destruct H as [H|H]; [left|right]; auto.
Qed.

Lemma appendAll_cons e entries s :
  appendAll (e :: entries) s =
  appendAll entries
    (saveToHistory (fst e) (fst (fst (snd e))) (snd (fst (snd e)))
       (snd (snd e)) s).
Proof. destruct e as [env [[a b] c]]. reflexivity. Qed.

(** The store after a run of appends: the new entries, newest first, in
    front of the old ones, cut to twenty. *)
Lemma appendAll_history entries : forall s,
  (List.length (history (hooks s)) <= 20)%nat ->
  history (hooks (appendAll entries s)) =
  firstn 20 (rev (map entry_of entries) ++ history (hooks s)).
Proof.
  induction entries as [|e entries IH]; intros s Hlen.
  - simpl. symmetry. apply firstn_all2. exact Hlen.
  - rewrite appendAll_cons, IH.
    + rewrite saveToHistory_history, firstn_app_firstn.
      destruct e as [env [[a b] c]]. simpl.
      rewrite <- app_assoc. reflexivity.
    + rewrite saveToHistory_history. apply firstn_le_length.
Qed.

(** Every identifier in the store is one the store started with, or the
    clock reading of one of the appends. *)
Lemma appendAll_ids entries : forall s e,
  In e (history (hooks (appendAll entries s))) ->
  In (HistoryEntry.id e) (map HistoryEntry.id (history (hooks s)))
  \/ In (HistoryEntry.id e) (readings entries).
Proof.
  induction entries as [|x entries IH]; intros s e Hin.
  - left. apply in_map. exact Hin.
  - rewrite appendAll_cons in Hin. apply IH in Hin.
    destruct Hin as [Hin|Hin]; [|right; right; exact Hin].
    rewrite saveToHistory_history in Hin.
    apply in_map_iff in Hin. destruct Hin as (y & Hy & Hin).
    apply In_firstn in Hin. destruct Hin as [Hin|Hin].
    + right. left. rewrite <- Hy, <- Hin. reflexivity.
    + left. rewrite <- Hy. apply in_map. exact Hin.
Qed.

(** A failure to persist an append is swallowed: a diagnostic is printed,
    the stored item stays as it was, the history is the updated one. *)
Lemma saveToHistory_swallows env a b c s :
  setItem_throws env = true ->
  let s' := saveToHistory env a b c s in
  history (hooks s') =
    firstn 20 (HistoryEntry.mk (toISOString env) (toLocaleString env) a b c
                 :: history (hooks s))
  /\ localStorage (world s') = localStorage (world s)
  /\ calls (world s') =
       (calls (world s)
          ++ [localStorage_setItem (history (hooks s'));
              console_error "Failed to save history to localStorage"])%list.
Proof.
  intros H. unfold saveToHistory, seq_cmd. rewrite H. simpl.
  rewrite <- app_assoc. repeat split.
Qed.

(** A failure to persist a removal escapes the updater, which never gets
    to return the new history. *)
Lemma deleteHistoryItem_throws env id s :
  setItem_throws env = true ->
  exists s', deleteHistoryItem env id s = threw DOMException s'
             /\ history (hooks s') = history (hooks s)
             /\ localStorage (world s') = localStorage (world s).
Proof.
  intros H. unfold deleteHistoryItem. rewrite H.
  eexists. split; [reflexivity|]. split; reflexivity.
Qed.

End HistoryFacts.

(** C5.  Starting from an empty history, after 25 appends exactly 20 entries
    remain; they are the 20 appended last, newest first. *)
Theorem saveToHistory_25_keeps_20_newest
    (entries : list (Env * (string * string * string))) (s : State) :
  history (hooks s) = [] ->
  List.length entries = 25%nat ->
  List.length (history (hooks (appendAll entries s))) = 20%nat /\
  history (hooks (appendAll entries s)) = rev (map entry_of (skipn 5 entries)).
Proof.
  intros Hempty Hlen.
  assert (E : history (hooks (appendAll entries s)) =
              rev (map entry_of (skipn 5 entries))).
  { rewrite appendAll_history by (rewrite Hempty; simpl; lia).
    rewrite Hempty, app_nil_r, firstn_rev, length_map, Hlen.
    change (25 - 20)%nat with 5%nat. rewrite skipn_map. reflexivity. }
  split; [|exact E].
  rewrite E, length_rev, length_map, length_skipn, Hlen. reflexivity.
Qed.

Lemma saveToHistory_25_keeps_20_newest_witness :
  history (hooks (mounted None)) = [] /\
  List.length sample_entries = 25%nat /\
  List.length (history (hooks (appendAll sample_entries (mounted None)))) = 20%nat /\
  history (hooks (appendAll sample_entries (mounted None))) =
    rev (map entry_of (skipn 5 sample_entries)).
Proof.
  split; [reflexivity|]. split; [reflexivity|].
  apply (saveToHistory_25_keeps_20_newest sample_entries (mounted None));
    reflexivity.
Defined.

(** C6, as amended.  An append gives the new entry the ISO reading of the
    clock as its identifier.  It differs from the identifier of every entry
    already in the store whenever that reading differs from the identifiers
    the store started with and from the readings of all earlier appends. *)
Theorem saveToHistory_id_fresh_when_clock_differs
    (entries : list (Env * (string * string * string))) (s0 : State)
    (env : Env) (a b c : string) :
  ~ In (toISOString env) (map HistoryEntry.id (history (hooks s0))) ->
  ~ In (toISOString env) (readings entries) ->
  exists new rest,
    history (hooks (saveToHistory env a b c (appendAll entries s0))) = new :: rest
    /\ HistoryEntry.id new = toISOString env
    /\ forall old, In old (history (hooks (appendAll entries s0))) ->
                   HistoryEntry.id new <> HistoryEntry.id old.
Proof.
  intros Hstart Hearlier.
  rewrite saveToHistory_history. rewrite firstn_cons.
  eexists. eexists. split; [reflexivity|]. split; [reflexivity|].
  intros old Hold Heq. simpl in Heq.
  apply appendAll_ids in Hold. rewrite <- Heq in Hold.
  destruct Hold; contradiction.
Qed.

Lemma saveToHistory_id_fresh_when_clock_differs_witness :
  ~ In "Z" (map HistoryEntry.id (history (hooks (mounted None)))) /\
  ~ In "Z" (readings sample_entries) /\
  exists new rest,
    history (hooks (saveToHistory (sample_env "Z" false) "Hello" "Hola" "Spanish"
                      (appendAll sample_entries (mounted None)))) = new :: rest
    /\ HistoryEntry.id new = "Z"
    /\ forall old, In old (history (hooks (appendAll sample_entries (mounted None)))) ->
                   HistoryEntry.id new <> HistoryEntry.id old.
Proof.
  assert (H0 : ~ In "Z" (map HistoryEntry.id (history (hooks (mounted None))))).
  { simpl. tauto. }
  assert (H1 : ~ In "Z" (readings sample_entries)).
  { vm_compute. intros H.
    repeat (destruct H as [H|H]; [discriminate H|]). exact H. }
  split; [exact H0|]. split; [exact H1|].
  exact (saveToHistory_id_fresh_when_clock_differs sample_entries (mounted None)
           (sample_env "Z" false) "Hello" "Hola" "Spanish" H0 H1).
Defined.

(** C6, as stated, fails: two appends at the same clock reading give the
    second entry the identifier of the first, which is still in the
    store. *)
Lemma saveToHistory_same_clock_same_id :
  ~ (forall (env : Env) (a b c : string) (s : State) (new old : HistoryEntry.t),
       hd_error (history (hooks (saveToHistory env a b c s))) = Some new ->
       In old (history (hooks s)) ->
       HistoryEntry.id new <> HistoryEntry.id old).
Proof.
  intros H.
  set (env := sample_env "2026-11-01T09:00:00.000Z" false).
  set (s1 := saveToHistory env "Hello" "Hola" "Spanish" (mounted None)).
  apply (H env "Bye" "Adios" "Spanish" s1
           (HistoryEntry.mk "2026-11-01T09:00:00.000Z" "11/1/2026, 9:00:00 AM"
              "Bye" "Adios" "Spanish")
           stored_entry).
  - reflexivity.
  - left. reflexivity.
  - reflexivity.
Qed.

(** C7 fails for removals.  With one entry stored and a [localStorage] that
    refuses writes, [deleteHistoryItem] lets the exception escape and the
    history keeps the entry, while [saveToHistory] under the same conditions
    prints a diagnostic and returns the updated history. *)
Theorem deleteHistoryItem_persist_failure_escapes :
  let s := mounted (Some (json [stored_entry])) in
  let env := sample_env "2026-11-01T09:05:00.000Z" true in
  (exists s',
      deleteHistoryItem env (HistoryEntry.id stored_entry) s = threw DOMException s'
      /\ history (hooks s') = [stored_entry]
      /\ dispatch sample_languages
           (click_deleteHistoryItem (HistoryEntry.id stored_entry) env) s
         = call (uncaught DOMException) s')
  /\ history (hooks (saveToHistory env "Bye" "Adios" "Spanish" s)) =
       [HistoryEntry.mk "2026-11-01T09:05:00.000Z" "11/1/2026, 9:00:00 AM"
          "Bye" "Adios" "Spanish"; stored_entry]
  /\ In (console_error "Failed to save history to localStorage")
       (calls (world (saveToHistory env "Bye" "Adios" "Spanish" s))).
Proof.
  split.
  - eexists. split; [reflexivity|]. split; reflexivity.
  - split; [reflexivity|]. simpl. tauto.
Qed.

(** ** Translation invoker *)

(** C9.  For a text that is empty or made of white space only,
    [translateText] returns at once and leaves the whole state as it was:
    no remote call, no history entry, no change of the session state or of
    the displays. *)
Theorem translateText_blank_is_noop
    (TARGET_LANGUAGES : list Language) (text language : string) (s : State) :
  blank text = true ->
  translateText TARGET_LANGUAGES text language s = s.
Proof.
  intros H. unfold translateText. rewrite trim_truthy, H. reflexivity.
Qed.

Lemma translateText_blank_is_noop_witness :
  blank ideographic_blank = true /\
  translateText sample_languages ideographic_blank "es" (mounted None)
    = mounted None.
Proof.
  split; [reflexivity|].
  apply (translateText_blank_is_noop sample_languages ideographic_blank "es"
           (mounted None)).
  reflexivity.
Defined.

(** C3.  A text either is blank, and then no call is made at all, or it is
    sent in exactly one remote call, whose prompt names the resolved
    language and quotes the text.  Whatever state the application is in
    when that call settles, [translateText] ends with the session state
    [IDLE]; when the call failed, it has also cleared the translation
    display and set the error message: "Translation failed: " followed by
    the message of the [Error] thrown, or by a fixed text when what was
    thrown is not an [Error]. *)
Theorem translateText_returns_to_idle
    (TARGET_LANGUAGES : list Language) (text language : string) (s : State) :
  (blank text = true /\ translateText TARGET_LANGUAGES text language s = s)
  \/
  (blank text = false /\
   let languageName := selectedLanguageName TARGET_LANGUAGES language in
   let s1 := translateText TARGET_LANGUAGES text language s in
   calls (world s1) =
     (calls (world s)
        ++ [generateContent
              ("Translate the following text to " ++ languageName ++ ": "
                 ++ String "034" (text ++ String "034" EmptyString))])%list
   /\ awaiting (world s1) =
        (awaiting (world s)
           ++ [translateText_after_generateContent text languageName])%list
   /\ recordingState (hooks s1) = TRANSLATING
   /\ (forall (e : Thrown) (env : Env) (s' : State),
         let s2 := translateText_resume text languageName (rejected e) env s' in
         recordingState (hooks s2) = IDLE
         /\ translatedText (hooks s2) = ""
         /\ error (hooks s2) =
              Some (match e with
                    | Error_ m => "Translation failed: " ++ m
                    | NotAnError =>
                        "Translation failed: An unknown error occurred during translation."
                    end))
   /\ (forall (translation : string) (env : Env) (s' : State),
         let s2 :=
           translateText_resume text languageName (fulfilled translation) env s' in
         recordingState (hooks s2) = IDLE
         /\ translatedText (hooks s2) = translation
         /\ error (hooks s2) = error (hooks s'))).
Proof.
  destruct (blank text) eqn:B.
  - left. split; [reflexivity|].
    unfold translateText. rewrite trim_truthy, B. reflexivity.
  - right. split; [reflexivity|].
    unfold translateText. rewrite trim_truthy, B. simpl negb. cbv iota.
    split; [reflexivity|]. split; [reflexivity|]. split; [reflexivity|].
    split.
    + intros e env s'. destruct e as [m|]; repeat split.
    + intros translation env s'.
      unfold translateText_resume, saveToHistory, seq_cmd.
      destruct (setItem_throws env); repeat split.
Qed.

Lemma translateText_returns_to_idle_witness :
  let s1 := translateText sample_languages "Hello" "fr" (mounted None) in
  let s2 :=
    translateText_resume "Hello" "French" (rejected (Error_ "quota exceeded"))
      (sample_env "A" false) s1 in
  recordingState (hooks s2) = IDLE
  /\ translatedText (hooks s2) = ""
  /\ error (hooks s2) = Some "Translation failed: quota exceeded".
Proof.
  destruct (translateText_returns_to_idle sample_languages "Hello" "fr"
              (mounted None)) as [[B _] | (_ & _ & _ & _ & F & _)].
  - discriminate B.
  - exact (F (Error_ "quota exceeded") (sample_env "A" false)
             (translateText sample_languages "Hello" "fr" (mounted None))).
Defined.

(** The same along a whole session, for a call that fails with an
    [Error]. *)
Example translateText_failure_example :
  let s := run sample_languages
             (hello_world (rejected (Error_ "quota exceeded"))
                (sample_env "A" false))
             (mounted None) in
  recordingState (hooks s) = IDLE
  /\ translatedText (hooks s) = ""
  /\ error (hooks s) = Some "Translation failed: quota exceeded"
  /\ history (hooks s) = [].
Proof. vm_compute. repeat split. Qed.

(** C10.  [translateText] does not touch the history before its call
    settles.  When the call fails, the history, the stored item and the
    calls to [localStorage] are left as they were; when it succeeds, one
    entry is added in front, made of the original text, the translation and
    the resolved language name. *)
Theorem failed_translation_leaves_history
    (TARGET_LANGUAGES : list Language) (text language : string)
    (e : Thrown) (env : Env) (s s' : State) :
  let languageName := selectedLanguageName TARGET_LANGUAGES language in
  history (hooks (translateText TARGET_LANGUAGES text language s))
    = history (hooks s)
  /\ (let s2 := translateText_resume text languageName (rejected e) env s' in
      history (hooks s2) = history (hooks s')
      /\ localStorage (world s2) = localStorage (world s')
      /\ calls (world s2) =
           (calls (world s') ++ [console_error "Translation error:"])%list)
  /\ (forall translation : string,
        history (hooks (translateText_resume text languageName
                          (fulfilled translation) env s'))
        = firstn 20
            (HistoryEntry.mk (toISOString env) (toLocaleString env)
               text translation languageName
             :: history (hooks s'))).
Proof.
  split; [|split].
  - unfold translateText. destruct (negb (truthy (trim text))); reflexivity.
  - repeat split.
  - intros translation.
    unfold translateText_resume, saveToHistory, seq_cmd.
    destruct (setItem_throws env); reflexivity.
Qed.

(** ** Session lifecycle *)

Section LifecycleFacts.

Variable TARGET_LANGUAGES : list Language.

(** The guard of [stopRecording]. *)
Lemma stopRecording_guard (language : string) (s : State) :
  recordingStateRef (refs s) <> RECORDING ->
  stopRecording TARGET_LANGUAGES language s = s.
Proof.
  intros H. unfold stopRecording.
  destruct (recordingStateRef (refs s)); try reflexivity.
  contradiction H; reflexivity.
Qed.

(** Once a task is over, the ref mirrors the session state. *)
Lemma handle_mirrors (ev : Event) (s : State) :
  recordingStateRef (refs (handle TARGET_LANGUAGES ev s)) =
  recordingState (hooks (handle TARGET_LANGUAGES ev s)).
Proof. reflexivity. Qed.

Lemma mounted_mirrors (stored : option StoredItem) :
  recordingStateRef (refs (mounted stored)) =
  recordingState (hooks (mounted stored)).
Proof. destruct stored as [[entries| |]|]; reflexivity. Qed.

Lemma run_mirrors (evs : list Event) : forall s : State,
  recordingStateRef (refs s) = recordingState (hooks s) ->
  recordingStateRef (refs (run TARGET_LANGUAGES evs s)) =
  recordingState (hooks (run TARGET_LANGUAGES evs s)).
Proof.
  induction evs as [|ev evs IH]; intros s H; [exact H|].
  simpl. apply IH, handle_mirrors.
Qed.

Lemma keeps_seq c1 c2 :
  keeps_microtasks c1 -> keeps_microtasks c2 -> keeps_microtasks (c1 ;; c2).
Proof. intros H1 H2 s. unfold seq_cmd. rewrite H2. apply H1. Qed.

Lemma keeps_whenb b c : keeps_microtasks c -> keeps_microtasks (whenb b c).
Proof. intros H. destruct b; [exact H | intros s; reflexivity]. Qed.

Lemma keeps_on_hooks f : keeps_microtasks (on_hooks f).
Proof. intros s. reflexivity. Qed.

Lemma keeps_on_refs f : keeps_microtasks (on_refs f).
Proof. intros s. reflexivity. Qed.

Lemma keeps_call c : keeps_microtasks (call c).
Proof. intros s. reflexivity. Qed.

Lemma keeps_setRecordingState v : keeps_microtasks (setRecordingState v).
Proof. intros s. reflexivity. Qed.

Lemma keeps_await_host k : keeps_microtasks (await_host k).
Proof. intros s. reflexivity. Qed.

Ltac keeps :=
  repeat lazymatch goal with
    | |- keeps_microtasks (_ ;; _) => apply keeps_seq
    | |- keeps_microtasks (whenb _ _) => apply keeps_whenb
    | |- keeps_microtasks (on_hooks _) => apply keeps_on_hooks
    | |- keeps_microtasks (on_refs _) => apply keeps_on_refs
    | |- keeps_microtasks (call _) => apply keeps_call
    | |- keeps_microtasks (setRecordingState _) =>
        apply keeps_setRecordingState
    | |- keeps_microtasks (await_host _) => apply keeps_await_host
    end.

Lemma keeps_translateText text language :
  keeps_microtasks (translateText TARGET_LANGUAGES text language).
Proof.
  unfold translateText.
  destruct (negb (truthy (trim text))); [intros s; reflexivity|].
  unfold setTranslatedText, setError. keeps.
Qed.

Lemma keeps_stopRecording_flush language :
  keeps_microtasks (stopRecording_flush TARGET_LANGUAGES language).
Proof.
  assert (K : forall finalText,
             keeps_microtasks
               (set_currentTranscriptionRef "" ;;
                setTranscribedText finalText ;;
                translateText TARGET_LANGUAGES finalText language)).
  { intros finalText.
    unfold set_currentTranscriptionRef, setTranscribedText. keeps.
    apply keeps_translateText. }
  intros s. unfold stopRecording_flush.
  destruct (truthy (trim (currentTranscriptionRef (refs s))));
    [apply K | reflexivity].
Qed.

Lemma keeps_stopRecording_release language :
  keeps_microtasks (stopRecording_release TARGET_LANGUAGES language).
Proof.
  unfold stopRecording_release. keeps.
  - intros s. destruct (streamRef (refs s)); reflexivity.
  - intros s. destruct (scriptProcessorRef (refs s)); reflexivity.
  - intros s. destruct (mediaStreamSourceRef (refs s)); reflexivity.
  - intros s. destruct (audioContextRef (refs s)) as [[|]|];
      [reflexivity | apply keeps_stopRecording_flush ..].
Qed.

Lemma keeps_run_job j : keeps_microtasks (run_job TARGET_LANGUAGES j).
Proof.
  destruct j as [language]. unfold run_job, stopRecording_session.
  unfold set_sessionPromiseRef. keeps. apply keeps_stopRecording_release.
Qed.

(** The microtasks a callback left are all run before the task ends, and
    running them leaves no new one. *)
Lemma drain_empties (s : State) :
  microtasks (world (drain TARGET_LANGUAGES s)) = [].
Proof.
  unfold drain.
  assert (G : forall js s0, microtasks (world s0) = [] ->
              microtasks (world (fold_left
                (fun s' j => run_job TARGET_LANGUAGES j s') js s0)) = []).
  { induction js as [|j js IH]; intros s0 H0; [exact H0|].
    simpl. apply IH. rewrite keeps_run_job. exact H0. }
  apply G. reflexivity.
Qed.

End LifecycleFacts.

(** C8.  When the session state that [stopRecording] consults is not
    [RECORDING], be it through the ref it reads or, at the end of any run of
    tasks since mount, through the state the ref mirrors, the call returns
    the state it was given: the session state is unchanged and no call to
    the outside world is made. *)
Theorem stopRecording_noop_unless_recording
    (TARGET_LANGUAGES : list Language) (language : string) (s : State) :
  (recordingStateRef (refs s) <> RECORDING
   \/ (exists (evs : list Event) (stored : option StoredItem),
         s = run TARGET_LANGUAGES evs (mounted stored)
         /\ recordingState (hooks s) <> RECORDING)) ->
  stopRecording TARGET_LANGUAGES language s = s.
Proof.
  intros [H | (evs & stored & Hs & H)]; apply stopRecording_guard; [exact H|].
  subst s. rewrite run_mirrors; [exact H | apply mounted_mirrors].
Qed.

Lemma stopRecording_noop_unless_recording_witness :
  (recordingStateRef (refs (mounted None)) <> RECORDING
   \/ (exists (evs : list Event) (stored : option StoredItem),
         mounted None = run sample_languages evs (mounted stored)
         /\ recordingState (hooks (mounted None)) <> RECORDING))
  /\ recordingState (hooks (mounted None)) = IDLE
  /\ stopRecording sample_languages "es" (mounted None) = mounted None.
Proof.
  assert (H : recordingStateRef (refs (mounted None)) <> RECORDING
              \/ (exists (evs : list Event) (stored : option StoredItem),
                    mounted None = run sample_languages evs (mounted stored)
                    /\ recordingState (hooks (mounted None)) <> RECORDING)).
  { right. exists [], None. split; [reflexivity | discriminate]. }
  split; [exact H|]. split; [reflexivity|].
  exact (stopRecording_noop_unless_recording sample_languages "es"
           (mounted None) H).
Defined.

(** C1.  Start a recording, receive the fragments "Hello" and " world", then
    the end-of-turn signal.  Whatever the stored history, the language table
    and the answer of the translation call: the transcript on display is
    "Hello world"; the session state is set to [REQUESTING_PERMISSION], then
    [RECORDING], [STOPPING], [TRANSLATING] and [IDLE], and these are the
    states on display after the tasks; exactly one translation request is
    made, and its prompt names the resolved language (Spanish, with a table
    that has it under the initial code) and quotes the text
    "Hello world". *)
Theorem hello_world_session
    (TARGET_LANGUAGES : list Language) (stored : option StoredItem)
    (response : Settled string) (env : Env) :
  let evs := hello_world response env in
  let s := run TARGET_LANGUAGES evs (mounted stored) in
  transcribedText (hooks s) = "Hello world"
  /\ stateTrace (world s) =
       [REQUESTING_PERMISSION; RECORDING; STOPPING; TRANSLATING; IDLE]
  /\ observe TARGET_LANGUAGES evs (mounted stored) =
       [REQUESTING_PERMISSION; REQUESTING_PERMISSION; RECORDING; RECORDING;
        RECORDING; STOPPING; TRANSLATING; IDLE]
  /\ requests (calls (world s)) =
       ["Translate the following text to "
          ++ selectedLanguageName TARGET_LANGUAGES "es"
          ++ ": " ++ String "034" ("Hello world" ++ String "034" EmptyString)]
  /\ requests (calls (world (run sample_languages evs (mounted stored)))) =
       ["Translate the following text to Spanish: "
          ++ String "034" ("Hello world" ++ String "034" EmptyString)]
  /\ releases (calls (world s)) =
       [session_close; track_stop; scriptProcessor_disconnect;
        mediaStreamSource_disconnect; audioContext_close]
  /\ awaiting (world s) = [].
Proof.
  destruct env as [iso locale [|]], stored as [[entries| |]|],
    response as [translation|e];
    vm_compute; repeat split.
Qed.

(** A transcription that comes without a text is appended as the text
    "undefined". *)
Example handleMessage_without_text :
  let m := {| inputTranscription := Some None; turnComplete := false |} in
  let s := handle sample_languages (session_onmessage m)
             (recording_session "Hello") in
  transcribedText (hooks s) = "Helloundefined"
  /\ currentTranscriptionRef (refs s) = "Helloundefined".
Proof. vm_compute. split; reflexivity. Qed.

(** An empty stored text is skipped in silence; a stored text that is not
    JSON is reported and the history starts empty. *)
Example loadHistory_examples :
  calls (world (mounted (Some empty_text))) = []
  /\ history (hooks (mounted (Some empty_text))) = []
  /\ calls (world (mounted (Some unparsable))) =
       [console_error "Failed to load history from localStorage"]
  /\ history (hooks (mounted (Some unparsable))) = [].
Proof. repeat split. Qed.

(** C2 fails on the code.  [handleError] does not wait for [stopRecording]:
    it sets [ERROR] while the release sequence is still under way, and the
    end of that sequence then sets [IDLE] (or [TRANSLATING], then [IDLE],
    wiping the error message, when a transcript is pending). *)
Theorem handleError_ends_idle (e : ErrorEvent) (env : Env) :
  let after evs transcript :=
    run sample_languages evs (recording_session transcript) in
  (let s0 := after [] "" in
   let s1 := after [session_onerror e] "" in
   let s2 := after [session_onerror e; audioContext_close_fulfilled] "" in
   recordingState (hooks s0) = RECORDING
   /\ recordingState (hooks s1) = ERROR
   /\ awaiting (world s1) = [stopRecording_after_close "es"]
   /\ releases (calls (world s2)) =
        [session_close; track_stop; scriptProcessor_disconnect;
         mediaStreamSource_disconnect; audioContext_close]
   /\ awaiting (world s2) = []
   /\ audioContextRef (refs s2) = None
   /\ stateTrace (world s2) =
        [REQUESTING_PERMISSION; RECORDING; STOPPING; ERROR; IDLE]
   /\ recordingState (hooks s2) = IDLE
   /\ error (hooks s2) =
        Some ("An error occurred: " ++ message e ++ ". Please try again."))
  /\
  (let s2 := after [session_onerror e; audioContext_close_fulfilled] "Hello" in
   let s3 := after [session_onerror e; audioContext_close_fulfilled;
                    generateContent_settled (fulfilled "Hola") env] "Hello" in
   recordingState (hooks s2) = TRANSLATING
   /\ error (hooks s2) = None
   /\ stateTrace (world s3) =
        [REQUESTING_PERMISSION; RECORDING; STOPPING; ERROR; TRANSLATING; IDLE]
   /\ recordingState (hooks s3) = IDLE
   /\ error (hooks s3) = None).
Proof.
  destruct env as [iso locale [|]], e as [message];
    vm_compute; repeat split.
Qed.


(** * Further properties *)

(** ** Audio envelope *)

Section EnvelopeFacts.

Local Open Scope Z_scope.

Ltac zdiv := cbv beta in *; Z.to_euclidean_division_equations; lia.

Lemma base64_digit_value (n : Z) :
  0 <= n < 64 ->
  base64_value (Audio.base64_digit n) = n
  /\ Ascii.eqb (Audio.base64_digit n) "=" = false.
Proof.
  intros H. rewrite <- (Z2Nat.id n) by lia.
  assert (Hk : (Z.to_nat n < 64)%nat) by lia.
  generalize dependent (Z.to_nat n). clear H. intros k Hk.
  do 64 (destruct k as [|k]; [split; vm_compute; reflexivity|]).
  exfalso. lia.
Qed.

Lemma atob_quad (a b c d : ascii) (rest : string) :
  atob (String a (String b (String c (String d rest)))) =
  (if Ascii.eqb c "=" then [base64_value a * 4 + base64_value b / 16]
   else if Ascii.eqb d "="
        then [base64_value a * 4 + base64_value b / 16;
              (base64_value b mod 16) * 16 + base64_value c / 4]
        else (base64_value a * 4 + base64_value b / 16)
               :: ((base64_value b mod 16) * 16 + base64_value c / 4)
               :: ((base64_value c mod 4) * 64 + base64_value d)
               :: atob rest).
Proof. reflexivity. Qed.

Lemma is_equals_sign : Ascii.eqb "=" "=" = true.
Proof. reflexivity. Qed.

(** [atob] undoes [btoa] on bytes. *)
Lemma atob_btoa_bounded (n : nat) : forall bytes : list Z,
  (List.length bytes <= n)%nat -> Forall is_byte bytes ->
  atob (Audio.btoa bytes) = bytes.
Proof.
  unfold is_byte.
  induction n as [|n IH]; intros bytes Hlen Hb.
  - destruct bytes; [reflexivity | simpl in Hlen; lia].
  - destruct bytes as [|a [|b [|c rest]]]; [reflexivity| | |].
    + inversion_clear Hb as [|? ? Ha _].
      change (Audio.btoa [a])
        with (String (Audio.base64_digit (a / 4))
               (String (Audio.base64_digit ((a mod 4) * 16)) "==")).
      rewrite atob_quad, is_equals_sign.
      destruct (base64_digit_value (a / 4)) as [E1 _]; [zdiv|].
      destruct (base64_digit_value ((a mod 4) * 16)) as [E2 _]; [zdiv|].
      rewrite E1, E2. f_equal. zdiv.
    + inversion_clear Hb as [|? ? Ha Hb']. inversion_clear Hb' as [|? ? Hb _].
      change (Audio.btoa [a; b])
        with (String (Audio.base64_digit (a / 4))
               (String (Audio.base64_digit ((a mod 4) * 16 + b / 16))
                  (String (Audio.base64_digit ((b mod 16) * 4)) "="))).
      rewrite atob_quad, is_equals_sign.
      destruct (base64_digit_value (a / 4)) as [E1 _]; [zdiv|].
      destruct (base64_digit_value ((a mod 4) * 16 + b / 16)) as [E2 _]; [zdiv|].
      destruct (base64_digit_value ((b mod 16) * 4)) as [E3 N3]; [zdiv|].
      rewrite N3, E1, E2, E3. f_equal; [zdiv|]. f_equal. zdiv.
    + inversion_clear Hb as [|? ? Ha Hb']. inversion_clear Hb' as [|? ? Hb Hb''].
      inversion_clear Hb'' as [|? ? Hc Hrest].
      change (Audio.btoa (a :: b :: c :: rest))
        with (String (Audio.base64_digit (a / 4))
               (String (Audio.base64_digit ((a mod 4) * 16 + b / 16))
                  (String (Audio.base64_digit ((b mod 16) * 4 + c / 64))
                     (String (Audio.base64_digit (c mod 64))
                        (Audio.btoa rest))))).
      rewrite atob_quad.
      destruct (base64_digit_value (a / 4)) as [E1 _]; [zdiv|].
      destruct (base64_digit_value ((a mod 4) * 16 + b / 16)) as [E2 _]; [zdiv|].
      destruct (base64_digit_value ((b mod 16) * 4 + c / 64)) as [E3 N3]; [zdiv|].
      destruct (base64_digit_value (c mod 64)) as [E4 N4]; [zdiv|].
      rewrite N3, N4, E1, E2, E3, E4.
      rewrite IH; [|simpl in Hlen; lia | exact Hrest].
      f_equal; [zdiv|]. f_equal; [zdiv|]. f_equal. zdiv.
Qed.

Lemma atob_btoa (bytes : list Z) :
  Forall is_byte bytes -> atob (Audio.btoa bytes) = bytes.
Proof. apply (atob_btoa_bounded (List.length bytes)). lia. Qed.

Lemma Uint8Array_of_bytes (int16 : list Z) :
  Forall is_byte (Audio.Uint8Array_of int16).
Proof.
  unfold Audio.Uint8Array_of, is_byte.
  induction int16 as [|v rest IH]; simpl; [constructor|].
  constructor; [zdiv|]. constructor; [zdiv | exact IH].
Qed.

Lemma int16s_of_bytes_of_int16 (int16 : list Z) :
  Forall (fun v => -32768 <= v < 32768) int16 ->
  int16s_of_bytes (Audio.Uint8Array_of int16) = int16.
Proof.
  unfold Audio.Uint8Array_of.
  induction 1 as [|v rest Hv _ IH]; [reflexivity|].
  cbn [flat_map Audio.bytes_of_int16 app int16s_of_bytes].
  rewrite IH. f_equal.
  unfold Audio.wrap16.
  replace ((v mod 65536) mod 256 + 256 * (v mod 65536 / 256))
    with (v mod 65536) by zdiv.
  rewrite Z.mod_mod by lia.
  destruct (32768 <=? v mod 65536) eqn:E;
    [apply Z.leb_le in E | apply Z.leb_gt in E]; zdiv.
Qed.

Lemma fillInt16_in_range (samples : list spec_float) :
  Forall (fun v => -32768 <= v < 32768) (Audio.fillInt16 samples).
Proof.
  unfold Audio.fillInt16. apply Forall_map, Forall_forall.
  intros s _. apply ToInt16_range.
Qed.

Lemma btoa_length (n : nat) : forall bytes : list Z,
  (List.length bytes <= n)%nat ->
  String.length (Audio.btoa bytes) = (4 * ((List.length bytes + 2) / 3))%nat.
Proof.
  induction n as [|n IH]; intros bytes Hlen.
  - destruct bytes; [reflexivity | simpl in Hlen; lia].
  - destruct bytes as [|a [|b [|c rest]]]; try reflexivity.
    change (Audio.btoa (a :: b :: c :: rest))
      with (String (Audio.base64_digit (a / 4))
             (String (Audio.base64_digit ((a mod 4) * 16 + b / 16))
                (String (Audio.base64_digit ((b mod 16) * 4 + c / 64))
                   (String (Audio.base64_digit (c mod 64))
                      (Audio.btoa rest))))).
    cbn [String.length List.length]. rewrite IH by (simpl in Hlen; lia).
    replace (S (S (S (List.length rest))) + 2)%nat
      with (1 * 3 + (List.length rest + 2))%nat by lia.
    rewrite Nat.div_add_l by lia. lia.
Qed.

Lemma Uint8Array_of_length (int16 : list Z) :
  List.length (Audio.Uint8Array_of int16) = (2 * List.length int16)%nat.
Proof.
  unfold Audio.Uint8Array_of.
  induction int16 as [|v rest IH]; simpl; [reflexivity | rewrite IH; lia].
Qed.

End EnvelopeFacts.

(** X1.  Decoding the envelope of [createBlob], with [atob] and the
    little-endian 16-bit view, gives back exactly the 16-bit values the
    encoder computed, one per sample and in the order of the samples. *)
Theorem createBlob_round_trip (samples : list spec_float) :
  decodeBlob (Audio.createBlob samples) = Audio.fillInt16 samples
  /\ List.length (decodeBlob (Audio.createBlob samples)) = List.length samples.
Proof.
  assert (E : decodeBlob (Audio.createBlob samples) = Audio.fillInt16 samples).
  { unfold decodeBlob, Audio.createBlob, Audio.encode. cbn [Audio.data].
    rewrite atob_btoa by apply Uint8Array_of_bytes.
    apply int16s_of_bytes_of_int16, fillInt16_in_range. }
  split; [exact E|]. rewrite E. unfold Audio.fillInt16. apply length_map.
Qed.

(** X2.  The envelope of [n] samples carries [2 n] bytes, written as
    [4 * ceil (2 n / 3)] base64 characters, and is always tagged
    [audio/pcm;rate=16000]. *)
Theorem createBlob_size (samples : list spec_float) :
  String.length (Audio.data (Audio.createBlob samples))
    = (4 * ((2 * List.length samples + 2) / 3))%nat
  /\ List.length (Audio.Uint8Array_of (Audio.fillInt16 samples))
     = (2 * List.length samples)%nat
  /\ Audio.mimeType (Audio.createBlob samples) = "audio/pcm;rate=16000".
Proof.
  assert (L : List.length (Audio.Uint8Array_of (Audio.fillInt16 samples))
              = (2 * List.length samples)%nat).
  { rewrite Uint8Array_of_length. unfold Audio.fillInt16.
    rewrite length_map. reflexivity. }
  split; [|split; [exact L | reflexivity]].
  unfold Audio.createBlob, Audio.encode. cbn [Audio.data].
  rewrite (btoa_length (List.length (Audio.Uint8Array_of (Audio.fillInt16 samples))))
    by lia.
  rewrite L. reflexivity.
Qed.

Section QuantisationFacts.

Lemma truncation_in_range (x : Q) (t : Z) :
  Audio.truncation_of x t -> (-32769 < x)%Q -> (x < 32768)%Q ->
  (-32768 <= t < 32768)%Z.
Proof.
  intros [Hpos Hneg] Hlo Hhi.
  destruct (Qlt_le_dec x 0) as [Hx|Hx].
  - destruct (Hneg (Qlt_le_weak _ _ Hx)) as [H1 H2].
    assert (A : (inject_Z (t - 1) < inject_Z 0)%Q)
      by (change (inject_Z 0) with 0%Q; lra).
    assert (B : (inject_Z (-32769) < inject_Z t)%Q)
      by (change (inject_Z (-32769)) with (-32769)%Q; lra).
    rewrite <- Zlt_Qlt in A, B. lia.
  - destruct (Hpos Hx) as [H1 H2].
    assert (A : (inject_Z t < inject_Z 32768)%Q)
      by (change (inject_Z 32768) with 32768%Q; lra).
    assert (B : (inject_Z 0 < inject_Z (t + 1))%Q)
      by (change (inject_Z 0) with 0%Q; lra).
    rewrite <- Zlt_Qlt in A, B. lia.
Qed.

Lemma truncation_of_integer (x : Q) (t k : Z) :
  Audio.truncation_of x t -> (x == inject_Z k)%Q -> t = k.
Proof.
  intros [Hpos Hneg] Hk.
  destruct (Qlt_le_dec x 0) as [Hx|Hx].
  - destruct (Hneg (Qlt_le_weak _ _ Hx)) as [H1 H2].
    rewrite Hk in H1, H2. rewrite <- Zlt_Qlt in H1. rewrite <- Zle_Qle in H2. lia.
  - destruct (Hpos Hx) as [H1 H2].
    rewrite Hk in H1, H2. rewrite <- Zle_Qle in H1. rewrite <- Zlt_Qlt in H2. lia.
Qed.

End QuantisationFacts.

(** X3.  For a finite sample [s] whose scaled value [x = s * 32768] lies
    strictly between -32769 and 32768 (every sample in [[-1, 1)] does), the
    stored integer is [x] with its fractional part dropped: it is within one
    quantisation step of [x], never farther from zero than [x], and equal
    to [x] whenever [x] is an integer. *)
Theorem createBlob_quantisation (s : spec_float) (x : Q) :
  Audio.scaled s = Some x ->
  (-32769 < x)%Q ->
  (x < 32768)%Q ->
  Audio.truncation_of x (Audio.int16_of_sample s)
  /\ (forall k : Z, (x == inject_Z k)%Q -> Audio.int16_of_sample s = k).
Proof.
  unfold Audio.scaled, Audio.int16_of_sample. intros Hs Hlo Hhi.
  destruct (Audio.times32768 (Audio.toNumber s)) as [| |q]; try discriminate.
  injection Hs as ->.
  pose proof (truncate_is_truncation x) as T.
  pose proof (truncation_in_range _ _ T Hlo Hhi) as R.
  rewrite (ToInt16_in_range x R).
  split; [exact T|]. intros k Hk. exact (truncation_of_integer _ _ _ T Hk).
Qed.

Lemma createBlob_quantisation_witness :
  Audio.scaled Audio.half = Some (274877906944 # 16777216)%Q /\
  (-32769 < 274877906944 # 16777216)%Q /\
  (274877906944 # 16777216 < 32768)%Q /\
  Audio.truncation_of (274877906944 # 16777216) (Audio.int16_of_sample Audio.half)
  /\ (forall k : Z, (274877906944 # 16777216 == inject_Z k)%Q ->
                    Audio.int16_of_sample Audio.half = k).
Proof.
  split; [reflexivity|]. split; [reflexivity|]. split; [reflexivity|].
  apply (createBlob_quantisation Audio.half (274877906944 # 16777216));
    reflexivity.
Defined.

(** ** File helpers *)

Section SplitFacts.

Lemma split_comma_no_comma (s : string) :
  has_comma s = false -> split_comma s = [s].
Proof.
  unfold has_comma. induction s as [|c rest IH]; [reflexivity|].
  cbn [list_ascii_of_string existsb split_comma].
  intros H. apply orb_false_iff in H. destruct H as [Hc Hrest].
  rewrite Ascii.eqb_sym in Hc. rewrite Hc, (IH Hrest). reflexivity.
Qed.

Lemma split_comma_header (header rest : string) :
  has_comma header = false ->
  split_comma (header ++ String "," rest) = header :: split_comma rest.
Proof.
  unfold has_comma. induction header as [|c h IH]; [reflexivity|].
  cbn [list_ascii_of_string existsb append split_comma].
  intros H. apply orb_false_iff in H. destruct H as [Hc Hrest].
  rewrite Ascii.eqb_sym in Hc. rewrite Hc, (IH Hrest). reflexivity.
Qed.

End SplitFacts.

(** X4.  [fileToBase64] resolves with the second of the pieces the commas
    cut the reader's result into: for a data URL whose header and payload
    hold no comma that is the payload, whole; for a result with no comma at
    all it is [undefined]. *)
Theorem fileToBase64_payload (header payload : string) :
  has_comma header = false ->
  has_comma payload = false ->
  fileToBase64_onload (header ++ String "," payload) = Some payload
  /\ fileToBase64_onload header = None.
Proof.
  intros Hh Hp. unfold fileToBase64_onload.
  rewrite (split_comma_header header payload Hh).
  rewrite (split_comma_no_comma payload Hp), (split_comma_no_comma header Hh).
  split; reflexivity.
Qed.

Lemma fileToBase64_payload_witness :
  has_comma "data:audio/mpeg;base64" = false /\
  has_comma "SUQzBAA=" = false /\
  fileToBase64_onload ("data:audio/mpeg;base64" ++ String "," "SUQzBAA=")
    = Some "SUQzBAA="
  /\ fileToBase64_onload "data:audio/mpeg;base64" = None.
Proof.
  split; [reflexivity|]. split; [reflexivity|].
  apply (fileToBase64_payload "data:audio/mpeg;base64" "SUQzBAA=");
    reflexivity.
Defined.

(** ** History store, continued *)

Section StoreFacts.

Lemma filter_all {A : Type} (f : A -> bool) (l : list A) :
  (forall x, In x l -> f x = true) -> filter f l = l.
Proof.
  induction l as [|x l IH]; intros H; [reflexivity|].
  simpl. rewrite (H x (or_introl eq_refl)). f_equal.
  apply IH. intros y Hy. apply H. right. exact Hy.
Qed.

Lemma filter_twice {A : Type} (f : A -> bool) (l : list A) :
  filter f (filter f l) = filter f l.
Proof.
  apply filter_all. intros x Hx. apply filter_In in Hx. apply Hx.
Qed.

Lemma filter_shorter {A : Type} (f : A -> bool) (l : list A) :
  (List.length (filter f l) <= List.length l)%nat.
Proof.
  induction l as [|x l IH]; simpl; [lia|].
  destruct (f x); simpl; lia.
Qed.

Lemma deleteHistoryItem_history env id s :
  history (hooks (updated_state (deleteHistoryItem env id s))) =
  if setItem_throws env then history (hooks s)
  else filter (fun item => negb (String.eqb (HistoryEntry.id item) id))
         (history (hooks s)).
Proof.
  unfold deleteHistoryItem. destruct (setItem_throws env); reflexivity.
Qed.

End StoreFacts.

(** X5.  When the write succeeds, an append or a removal leaves in
    [localStorage] exactly the history now in memory: mounting the
    application again over that item loads the same history. *)
Theorem history_survives_restart
    (env : Env) (a b c id : string) (s : State) :
  setItem_throws env = false ->
  history (hooks (mounted (localStorage (world (saveToHistory env a b c s)))))
    = history (hooks (saveToHistory env a b c s))
  /\ history (hooks (mounted (localStorage
                (world (updated_state (deleteHistoryItem env id s))))))
     = history (hooks (updated_state (deleteHistoryItem env id s))).
Proof.
  intros H. unfold saveToHistory, deleteHistoryItem, seq_cmd.
  rewrite H. split; reflexivity.
Qed.

Lemma history_survives_restart_witness :
  setItem_throws (sample_env "A" false) = false /\
  history (hooks (mounted (localStorage (world
    (saveToHistory (sample_env "A" false) "Hello" "Hola" "Spanish"
       (mounted None))))))
    = history (hooks (saveToHistory (sample_env "A" false)
                        "Hello" "Hola" "Spanish" (mounted None)))
  /\ history (hooks (mounted (localStorage (world (updated_state
       (deleteHistoryItem (sample_env "A" false) "A" (mounted None)))))))
     = history (hooks (updated_state
         (deleteHistoryItem (sample_env "A" false) "A" (mounted None)))).
Proof.
  split; [reflexivity|].
  apply (history_survives_restart (sample_env "A" false)
           "Hello" "Hola" "Spanish" "A" (mounted None)).
  reflexivity.
Defined.

(** X6.  A removal whose write succeeds removes every entry that carries
    the identifier, all of them when several share it, and nothing else;
    the entries kept stay in their order.  Removing the same identifier
    again changes nothing. *)
Theorem deleteHistoryItem_removes_every_match
    (env : Env) (id : string) (s : State) :
  setItem_throws env = false ->
  let s' := updated_state (deleteHistoryItem env id s) in
  (forall e, In e (history (hooks s')) <->
             In e (history (hooks s)) /\ HistoryEntry.id e <> id)
  /\ history (hooks s')
     = filter (fun e => negb (String.eqb (HistoryEntry.id e) id))
         (history (hooks s))
  /\ (List.length (history (hooks s')) <= List.length (history (hooks s)))%nat
  /\ history (hooks (updated_state (deleteHistoryItem env id s')))
     = history (hooks s').
Proof.
  intros H s'. subst s'.
  rewrite !deleteHistoryItem_history, H.
  split; [|split; [|split]].
  - intros e. rewrite filter_In.
    rewrite negb_true_iff, String.eqb_neq. reflexivity.
  - reflexivity.
  - apply filter_shorter.
  - apply filter_twice.
Qed.

Lemma deleteHistoryItem_removes_every_match_witness :
  setItem_throws (sample_env "A" false) = false /\
  let s := mounted (Some (json [stored_entry; stored_entry])) in
  let s' := updated_state
              (deleteHistoryItem (sample_env "A" false)
                 (HistoryEntry.id stored_entry) s) in
  history (hooks s') = []
  /\ (forall e, In e (history (hooks s')) <->
                In e (history (hooks s))
                /\ HistoryEntry.id e <> HistoryEntry.id stored_entry).
Proof.
  split; [reflexivity|]. intros s s'. split; [reflexivity|].
  apply (deleteHistoryItem_removes_every_match (sample_env "A" false)
           (HistoryEntry.id stored_entry) s).
  reflexivity.
Defined.

(** X7.  Removing an identifier that no entry carries never changes the
    history, whether the write succeeds or throws; when it succeeds, the
    stored item is rewritten with that same history. *)
Theorem deleteHistoryItem_absent_id (env : Env) (id : string) (s : State) :
  ~ In id (map HistoryEntry.id (history (hooks s))) ->
  history (hooks (updated_state (deleteHistoryItem env id s)))
    = history (hooks s)
  /\ (setItem_throws env = false ->
      deleteHistoryItem env id s
      = returned ((set_localStorage (Some (json (history (hooks s)))) ;;
                   setHistory_to (history (hooks s)))
                    (call (localStorage_setItem (history (hooks s))) s))).
Proof.
  intros Habsent.
  assert (F : filter (fun item => negb (String.eqb (HistoryEntry.id item) id))
                (history (hooks s)) = history (hooks s)).
  { apply filter_all. intros e He. apply negb_true_iff, String.eqb_neq.
    intros E. apply Habsent. rewrite <- E. apply in_map. exact He. }
  split.
  - rewrite deleteHistoryItem_history, F. destruct (setItem_throws env); reflexivity.
  - intros H. unfold deleteHistoryItem. rewrite H, F. reflexivity.
Qed.

Lemma deleteHistoryItem_absent_id_witness :
  ~ In "none" (map HistoryEntry.id (history (hooks (mounted (Some (json [stored_entry])))))) /\
  history (hooks (updated_state
    (deleteHistoryItem (sample_env "A" true) "none"
       (mounted (Some (json [stored_entry]))))))
  = [stored_entry].
Proof.
  assert (H : ~ In "none" (map HistoryEntry.id
                (history (hooks (mounted (Some (json [stored_entry]))))))).
  { simpl. intros [E|[]]. discriminate E. }
  split; [exact H|].
  exact (proj1 (deleteHistoryItem_absent_id (sample_env "A" true) "none"
                  (mounted (Some (json [stored_entry]))) H)).
Defined.

(** ** The bound on the history, along any run *)

Section BoundFacts.

Variable TARGET_LANGUAGES : list Language.

Lemma kh_seq c1 c2 :
  keeps_history c1 -> keeps_history c2 -> keeps_history (c1 ;; c2).
Proof. intros H1 H2 s. unfold seq_cmd. rewrite H2. apply H1. Qed.

Lemma kh_whenb b c : keeps_history c -> keeps_history (whenb b c).
Proof. intros H. destruct b; [exact H | intros s; reflexivity]. Qed.

Lemma kh_bounded c : keeps_history c -> keeps_bounded c.
Proof. intros H s. unfold bounded. rewrite H. trivial. Qed.

(** Sequences and guards are taken apart; what is left is one setter, one
    assignment or one call, none of which names the history. *)
Ltac kh :=
  repeat lazymatch goal with
    | |- keeps_history (_ ;; _) => apply kh_seq
    | |- keeps_history (whenb _ _) => apply kh_whenb
    end;
  lazymatch goal with
  | |- keeps_history skip => intros ?; reflexivity
  | |- keeps_history (setRecordingState _) => intros ?; reflexivity
  | |- keeps_history (setTranscribedText _) => intros ?; reflexivity
  | |- keeps_history (setTranslatedText _) => intros ?; reflexivity
  | |- keeps_history (setTargetLanguage _) => intros ?; reflexivity
  | |- keeps_history (setError _) => intros ?; reflexivity
  | |- keeps_history (setAudioFile _) => intros ?; reflexivity
  | |- keeps_history (set_sessionPromiseRef _) => intros ?; reflexivity
  | |- keeps_history (set_audioContextRef _) => intros ?; reflexivity
  | |- keeps_history (set_streamRef _) => intros ?; reflexivity
  | |- keeps_history (set_scriptProcessorRef _) => intros ?; reflexivity
  | |- keeps_history (set_mediaStreamSourceRef _) => intros ?; reflexivity
  | |- keeps_history (set_currentTranscriptionRef _) => intros ?; reflexivity
  | |- keeps_history (set_recordingStateRef _) => intros ?; reflexivity
  | |- keeps_history (set_callbacksLanguage _) => intros ?; reflexivity
  | |- keeps_history (set_awaiting _) => intros ?; reflexivity
  | |- keeps_history (set_microtasks _) => intros ?; reflexivity
  | |- keeps_history (call _) => intros ?; reflexivity
  | |- keeps_history (await_host _) => intros ?; reflexivity
  | |- keeps_history (await_fulfilled _) => intros ?; reflexivity
  | |- _ => idtac
  end.

Lemma kh_translateText text language :
  keeps_history (translateText TARGET_LANGUAGES text language).
Proof.
  unfold translateText. destruct (negb (truthy (trim text))); kh.
Qed.

Lemma kh_stopRecording_flush language :
  keeps_history (stopRecording_flush TARGET_LANGUAGES language).
Proof.
  assert (K : forall finalText,
             keeps_history
               (set_currentTranscriptionRef "" ;;
                setTranscribedText finalText ;;
                translateText TARGET_LANGUAGES finalText language)).
  { intros finalText. kh. apply kh_translateText. }
  intros s. unfold stopRecording_flush.
  destruct (truthy (trim (currentTranscriptionRef (refs s))));
    [apply K | reflexivity].
Qed.

Lemma kh_stopRecording_closed language :
  keeps_history (stopRecording_closed TARGET_LANGUAGES language).
Proof. unfold stopRecording_closed. kh. apply kh_stopRecording_flush. Qed.

Lemma kh_stopRecording_release language :
  keeps_history (stopRecording_release TARGET_LANGUAGES language).
Proof.
  unfold stopRecording_release. kh.
  - intros s. destruct (streamRef (refs s)); reflexivity.
  - intros s. destruct (scriptProcessorRef (refs s)); reflexivity.
  - intros s. destruct (mediaStreamSourceRef (refs s)); reflexivity.
  - intros s. destruct (audioContextRef (refs s)) as [[|]|];
      [reflexivity | apply kh_stopRecording_flush ..].
Qed.

Lemma kh_stopRecording_session language :
  keeps_history (stopRecording_session TARGET_LANGUAGES language).
Proof. unfold stopRecording_session. kh. apply kh_stopRecording_release. Qed.

Lemma kh_stopRecording language :
  keeps_history (stopRecording TARGET_LANGUAGES language).
Proof.
  intros s. unfold stopRecording.
  destruct (negb (RecordingState_eqb (recordingStateRef (refs s)) RECORDING));
    [reflexivity|].
  unfold seq_cmd.
  destruct (sessionPromiseRef (refs (setRecordingState STOPPING s)));
    [reflexivity|].
  rewrite kh_stopRecording_release. reflexivity.
Qed.

Lemma kh_handleMessage m : keeps_history (handleMessage TARGET_LANGUAGES m).
Proof.
  unfold handleMessage. kh.
  - intros s. destruct (inputTranscription m); reflexivity.
  - intros s. destruct (turnComplete m); [apply kh_stopRecording | reflexivity].
Qed.

Lemma kh_handleError e : keeps_history (handleError TARGET_LANGUAGES e).
Proof. unfold handleError. kh. intros s. apply kh_stopRecording. Qed.

Lemma kh_clearAudioFile : keeps_history clearAudioFile.
Proof. unfold clearAudioFile. kh. Qed.

Lemma kh_handleFileChange file : keeps_history (handleFileChange file).
Proof. unfold handleFileChange. destruct file; kh. Qed.

Lemma kh_transcribeAudioFile : keeps_history transcribeAudioFile.
Proof.
  assert (K : forall file language,
             keeps_history
               (setRecordingState TRANSLATING ;;
                setTranscribedText "Transcribing audio file..." ;;
                setTranslatedText "" ;;
                setError None ;;
                call (fileReader_readAsDataURL file) ;;
                await_host
                  (transcribeAudioFile_after_fileToBase64 file language)))
    by (intros file language; kh).
  intros s. unfold transcribeAudioFile.
  destruct (audioFile (hooks s)) as [file|]; [apply K | reflexivity].
Qed.

Lemma kh_transcribeAudioFile_catch e :
  keeps_history (transcribeAudioFile_catch e).
Proof. unfold transcribeAudioFile_catch. kh. Qed.

Lemma kh_transcribeAudioFile_read file language audioData :
  keeps_history (transcribeAudioFile_read file language audioData).
Proof.
  unfold transcribeAudioFile_read. destruct audioData as [data|e]; [kh|].
  apply kh_transcribeAudioFile_catch.
Qed.

Lemma kh_transcribeAudioFile_resume language response :
  keeps_history (transcribeAudioFile_resume TARGET_LANGUAGES language response).
Proof.
  unfold transcribeAudioFile_resume. destruct response as [t|e].
  - kh. apply kh_translateText.
  - apply kh_transcribeAudioFile_catch.
Qed.

Lemma kh_startRecording : keeps_history (startRecording TARGET_LANGUAGES).
Proof.
  intros s. unfold startRecording.
  destruct (RecordingState_eqb (recordingState (hooks s)) RECORDING);
    [apply kh_stopRecording|].
  assert (K : forall language,
             keeps_history
               ((match audioFile (hooks s) with
                 | Some _ => clearAudioFile
                 | None => skip
                 end) ;;
                setRecordingState REQUESTING_PERMISSION ;;
                setError None ;;
                setTranscribedText "" ;;
                setTranslatedText "" ;;
                set_currentTranscriptionRef "" ;;
                set_callbacksLanguage language ;;
                call getUserMedia ;;
                await_host startRecording_after_getUserMedia)).
  { intros language. kh.
    destruct (audioFile (hooks s)); [apply kh_clearAudioFile | kh]. }
  apply K.
Qed.

Lemma kh_startRecording_resume stream :
  keeps_history (startRecording_resume stream).
Proof.
  unfold startRecording_resume. destruct stream as [u|err]; kh.
  destruct (includes (errorMessage_or "An unknown error occurred." err)
              "Permission denied"); kh.
Qed.

Lemma kh_onopen : keeps_history onopen.
Proof. unfold onopen. kh. Qed.

Lemma kh_settle p run :
  (forall k, keeps_bounded (run k)) -> keeps_bounded (settle p run).
Proof.
  intros H s Hs. unfold settle.
  destruct (take_first p (awaiting (world s))) as [[k rest]|]; [|exact Hs].
  unfold seq_cmd. apply H. exact Hs.
Qed.

Lemma bounded_saveToHistory env a b c s :
  bounded (saveToHistory env a b c s).
Proof.
  unfold bounded. rewrite saveToHistory_history. apply firstn_le_length.
Qed.

Lemma bounded_translateText_resume text languageName response env :
  keeps_bounded (translateText_resume text languageName response env).
Proof.
  intros s Hs. destruct response as [translation|e].
  - unfold translateText_resume, seq_cmd.
    change (bounded (saveToHistory env text translation languageName
                       (setTranslatedText translation s))).
    apply bounded_saveToHistory.
  - exact Hs.
Qed.

Lemma bounded_deleteHistoryItem env id :
  keeps_bounded (fun s => updated_state (deleteHistoryItem env id s)).
Proof.
  intros s Hs. unfold bounded in *. rewrite deleteHistoryItem_history.
  destruct (setItem_throws env); [exact Hs|].
  pose proof (filter_shorter
                (fun item => negb (String.eqb (HistoryEntry.id item) id))
                (history (hooks s))).
  lia.
Qed.

Lemma bounded_dispatch ev : keeps_bounded (dispatch TARGET_LANGUAGES ev).
Proof.
  destruct ev as [ |c|file| | |result| |answer|id env|stream| |m|e|inputData|
                  |response env];
    cbn [dispatch].
  - intros s Hs. destruct (isDisabled (recordingState (hooks s)));
      [exact Hs | apply (kh_bounded _ kh_startRecording), Hs].
  - intros s Hs. destruct (isProcessing (recordingState (hooks s))); exact Hs.
  - intros s Hs. destruct (isProcessing (recordingState (hooks s)));
      [exact Hs | apply (kh_bounded _ (kh_handleFileChange file)), Hs].
  - apply kh_bounded, kh_clearAudioFile.
  - intros s Hs. destruct (isProcessing (recordingState (hooks s)));
      [exact Hs | apply (kh_bounded _ kh_transcribeAudioFile), Hs].
  - apply kh_settle. intros [|language|text languageName|file language|language];
      apply kh_bounded; first [apply kh_transcribeAudioFile_read
                              | intros s; reflexivity].
  - apply kh_settle. intros [|language|text languageName|file language|language];
      apply kh_bounded; first [apply kh_transcribeAudioFile_read
                              | intros s; reflexivity].
  - apply kh_settle. intros [|language|text languageName|file language|language];
      apply kh_bounded; try (intros s; reflexivity).
    apply kh_transcribeAudioFile_resume.
  - intros s Hs. pose proof (bounded_deleteHistoryItem env id s Hs) as B.
    cbv beta in B. destruct (deleteHistoryItem env id s); exact B.
  - apply kh_settle. intros k. apply kh_bounded, kh_startRecording_resume.
  - apply kh_bounded, kh_onopen.
  - apply kh_bounded, kh_handleMessage.
  - apply kh_bounded, kh_handleError.
  - apply kh_bounded. intros s. reflexivity.
  - apply kh_settle. intros [|language|text languageName|file language|language'];
      apply kh_bounded; try (intros s; reflexivity).
    apply kh_stopRecording_closed.
  - apply kh_settle. intros [|language|text languageName|file language|language];
      try (apply kh_bounded; intros s; reflexivity).
    apply bounded_translateText_resume.
Qed.

Lemma bounded_drain : keeps_bounded (drain TARGET_LANGUAGES).
Proof.
  intros s Hs. unfold drain.
  assert (G : forall js s0, bounded s0 ->
              bounded (fold_left
                (fun s' j => run_job TARGET_LANGUAGES j s') js s0)).
  { induction js as [|[language] js IH]; intros s0 H0; [exact H0|].
    simpl. apply IH. apply (kh_bounded _ (kh_stopRecording_session language)), H0. }
  apply G. exact Hs.
Qed.

Lemma bounded_handle ev : keeps_bounded (handle TARGET_LANGUAGES ev).
Proof.
  assert (K : keeps_history commit) by (intros x; reflexivity).
  intros s Hs. unfold handle, seq_cmd.
  apply (kh_bounded _ K), bounded_drain, bounded_dispatch, Hs.
Qed.

Lemma kh_settle_history p run :
  (forall k, keeps_history (run k)) -> keeps_history (settle p run).
Proof.
  intros H s. unfold settle.
  destruct (take_first p (awaiting (world s))) as [[k rest]|]; [|reflexivity].
  unfold seq_cmd. rewrite H. reflexivity.
Qed.

Lemma kh_drain : keeps_history (drain TARGET_LANGUAGES).
Proof.
  intros s. unfold drain.
  assert (G : forall js s0,
              history (hooks (fold_left
                (fun s' j => run_job TARGET_LANGUAGES j s') js s0))
              = history (hooks s0)).
  { induction js as [|[language] js IH]; intros s0; [reflexivity|].
    simpl. rewrite IH. apply kh_stopRecording_session. }
  rewrite G. reflexivity.
Qed.

Lemma kh_dispatch ev :
  writes_history ev = false -> keeps_history (dispatch TARGET_LANGUAGES ev).
Proof.
  destruct ev as [ |c|file| | |result| |answer|id env|stream| |m|e|inputData|
                  |[t|e] env];
    cbn [dispatch writes_history]; intros W; try discriminate W.
  - intros s. destruct (isDisabled (recordingState (hooks s)));
      [reflexivity | apply kh_startRecording].
  - intros s. destruct (isProcessing (recordingState (hooks s))); reflexivity.
  - intros s. destruct (isProcessing (recordingState (hooks s)));
      [reflexivity | apply kh_handleFileChange].
  - apply kh_clearAudioFile.
  - intros s. destruct (isProcessing (recordingState (hooks s)));
      [reflexivity | apply kh_transcribeAudioFile].
  - apply kh_settle_history.
    intros [|language|text languageName|file language|language];
      first [apply kh_transcribeAudioFile_read | intros s; reflexivity].
  - apply kh_settle_history.
    intros [|language|text languageName|file language|language];
      first [apply kh_transcribeAudioFile_read | intros s; reflexivity].
  - apply kh_settle_history.
    intros [|language|text languageName|file language|language];
      try (intros s; reflexivity).
    apply kh_transcribeAudioFile_resume.
  - apply kh_settle_history. intros k. apply kh_startRecording_resume.
  - apply kh_onopen.
  - apply kh_handleMessage.
  - apply kh_handleError.
  - intros s. reflexivity.
  - apply kh_settle_history.
    intros [|language|text languageName|file language|language'];
      try (intros s; reflexivity).
    apply kh_stopRecording_closed.
  - apply kh_settle_history.
    intros [|language|text languageName|file language|language];
      intros s; reflexivity.
Qed.

End BoundFacts.

(** X8.  Whatever the events, in whatever order (those of a recording and
    those of the transcription of a file alike), the history never holds
    more than twenty entries, provided the stored history the application
    mounts over does not. *)
Theorem history_never_exceeds_20
    (TARGET_LANGUAGES : list Language) (evs : list Event)
    (stored : option StoredItem) :
  stored_bounded stored ->
  (List.length (history (hooks (run TARGET_LANGUAGES evs (mounted stored))))
     <= 20)%nat.
Proof.
  intros H.
  assert (B : bounded (mounted stored)).
  { destruct stored as [[entries| |]|]; unfold bounded; simpl in *; lia. }
  clear H. revert B. generalize (mounted stored).
  induction evs as [|ev evs IH]; intros s B; [exact B|].
  simpl. apply IH, bounded_handle, B.
Qed.

Lemma history_never_exceeds_20_witness :
  stored_bounded (Some (json [stored_entry])) /\
  (List.length (history (hooks
     (run sample_languages
        (hello_world (fulfilled "Hola mundo") (sample_env "A" false)
           ++ talk_transcribed "Hello" (fulfilled "Hola") (sample_env "B" false))
        (mounted (Some (json [stored_entry]))))))
     <= 20)%nat.
Proof.
  assert (H : stored_bounded (Some (json [stored_entry]))) by (simpl; lia).
  split; [exact H|].
  exact (history_never_exceeds_20 sample_languages
           (hello_world (fulfilled "Hola mundo") (sample_env "A" false)
              ++ talk_transcribed "Hello" (fulfilled "Hola")
                   (sample_env "B" false))
           (Some (json [stored_entry])) H).
Defined.

(** X9.  Only two events can change the history: a click on a delete button
    and the answer of a translation call that succeeded.  Every other task
    (starting, stopping, transcript fragments, transport errors, audio
    frames, loading or removing a file, a click on "Transcribe File", the
    end of the read of the file, the answer of the transcription request,
    a failed translation) leaves it as it was. *)
Theorem history_written_by_two_events_only
    (TARGET_LANGUAGES : list Language) (ev : Event) (s : State) :
  writes_history ev = false ->
  history (hooks (handle TARGET_LANGUAGES ev s)) = history (hooks s).
Proof.
  intros W. unfold handle, seq_cmd.
  change (history (hooks (commit ?x))) with (history (hooks x)).
  rewrite kh_drain. apply kh_dispatch, W.
Qed.

Lemma history_written_by_two_events_only_witness :
  writes_history (generateContent_audio_settled (fulfilled "Hello")) = false /\
  history (hooks (handle sample_languages
                    (generateContent_audio_settled (fulfilled "Hello"))
                    (run sample_languages
                       [click_transcribeFile;
                        fileReader_onload "data:audio/mpeg;base64,SUQz"]
                       file_loaded)))
  = history (hooks file_loaded).
Proof.
  split; [reflexivity|].
  apply (history_written_by_two_events_only sample_languages
           (generateContent_audio_settled (fulfilled "Hello"))
           (run sample_languages
              [click_transcribeFile;
               fileReader_onload "data:audio/mpeg;base64,SUQz"]
              file_loaded)).
  reflexivity.
Defined.

(** ** Session lifecycle, continued *)

Section TranscriptFacts.

Variable TARGET_LANGUAGES : list Language.

Lemma append_assoc (a b c : string) : (a ++ b) ++ c = a ++ b ++ c.
Proof. induction a as [|x a IH]; simpl; [reflexivity | rewrite IH; reflexivity]. Qed.

Lemma append_empty_r (a : string) : a ++ "" = a.
Proof. induction a as [|x a IH]; simpl; [reflexivity | rewrite IH; reflexivity]. Qed.

(** One fragment, in any state between two tasks. *)
Lemma handle_fragment (t : string) (s : State) :
  microtasks (world s) = [] ->
  let s' := handle TARGET_LANGUAGES (fragment t) s in
  currentTranscriptionRef (refs s') = currentTranscriptionRef (refs s) ++ t
  /\ transcribedText (hooks s') = currentTranscriptionRef (refs s) ++ t
  /\ recordingState (hooks s') = recordingState (hooks s)
  /\ calls (world s') = calls (world s)
  /\ awaiting (world s') = awaiting (world s)
  /\ microtasks (world s') = [].
Proof.
  intros H.
  unfold handle, seq_cmd, dispatch, fragment, handleMessage, seq_cmd, whenb,
    skip, drain, commit.
  cbn [inputTranscription turnComplete].
  cbn [microtasks world set_currentTranscriptionRef setTranscribedText
       on_refs on_hooks seq_cmd].
  rewrite H. repeat split.
Qed.

End TranscriptFacts.

(** X10.  Transcript fragments are applied in the order received and none
    is dropped: after any list of fragment messages the buffer is what it
    was followed by the fragments joined in order, and the display shows
    exactly that.  This holds in every session state, and the fragments by
    themselves change neither the session state nor the calls made. *)
Theorem fragments_accumulate_in_order
    (TARGET_LANGUAGES : list Language) (texts : list string) (s : State) :
  microtasks (world s) = [] ->
  let s' := run TARGET_LANGUAGES (map fragment texts) s in
  currentTranscriptionRef (refs s')
    = currentTranscriptionRef (refs s) ++ joined texts
  /\ transcribedText (hooks s')
     = match texts with
       | [] => transcribedText (hooks s)
       | _ :: _ => currentTranscriptionRef (refs s) ++ joined texts
       end
  /\ recordingState (hooks s') = recordingState (hooks s)
  /\ calls (world s') = calls (world s)
  /\ awaiting (world s') = awaiting (world s).
Proof.
  revert s. induction texts as [|t texts IH]; intros s H.
  - cbn [map run fold_left joined fold_right].
    rewrite append_empty_r. repeat split.
  - destruct (handle_fragment TARGET_LANGUAGES t s H)
      as (E1 & E2 & E3 & E4 & E5 & E6).
    specialize (IH (handle TARGET_LANGUAGES (fragment t) s) E6).
    cbv zeta in IH.
    change (run TARGET_LANGUAGES (map fragment (t :: texts)) s)
      with (run TARGET_LANGUAGES (map fragment texts)
              (handle TARGET_LANGUAGES (fragment t) s)).
    destruct IH as (I1 & I2 & I3 & I4 & I5).
    cbv zeta. rewrite I1, I2, I3, I4, I5, E1, E2, E3, E4, E5.
    cbn [joined fold_right]. rewrite append_assoc.
    repeat split. destruct texts; [|reflexivity].
    cbn [fold_right]. rewrite append_empty_r. reflexivity.
Qed.

Lemma fragments_accumulate_in_order_witness :
  microtasks (world (recording_session "")) = [] /\
  currentTranscriptionRef
    (refs (run sample_languages (map fragment ["Hello"; " world"; "!"])
             (recording_session "")))
  = "Hello world!".
Proof.
  split; [reflexivity|].
  exact (proj1 (fragments_accumulate_in_order sample_languages
                  ["Hello"; " world"; "!"] (recording_session "") eq_refl)).
Defined.

Section ReleaseFacts.

Variable TARGET_LANGUAGES : list Language.

Lemma truthy_trim_blank (buffer : string) :
  blank buffer = true -> truthy (trim buffer) = false.
Proof. intros B. rewrite trim_truthy, B. reflexivity. Qed.

Lemma truthy_trim_text (buffer : string) :
  blank buffer = false -> truthy (trim buffer) = true.
Proof. intros B. rewrite trim_truthy, B. reflexivity. Qed.

(** [stopRecording_flush], by cases on the transcript. *)
Lemma stopRecording_flush_cases (language : string) (s : State) :
  stopRecording_flush TARGET_LANGUAGES language s =
  if blank (currentTranscriptionRef (refs s))
  then setRecordingState IDLE s
  else (set_currentTranscriptionRef "" ;;
        setTranscribedText (currentTranscriptionRef (refs s)) ;;
        setRecordingState TRANSLATING ;;
        setTranslatedText "Translating..." ;;
        setError None ;;
        call (generateContent
                (prompt_for (selectedLanguageName TARGET_LANGUAGES language)
                   (currentTranscriptionRef (refs s)))) ;;
        await_host
          (translateText_after_generateContent
             (currentTranscriptionRef (refs s))
             (selectedLanguageName TARGET_LANGUAGES language))) s.
Proof.
  unfold stopRecording_flush, translateText.
  rewrite trim_truthy.
  destruct (blank (currentTranscriptionRef (refs s))); reflexivity.
Qed.

(** Evaluate one layer of a task on a state given field by field; the
    transcript stays a variable, so the flush is decided by rewriting. *)
Ltac norm_layer E B :=
  cbv - [stopRecording_flush trim truthy blank append selectedLanguageName
         prompt_for app] in E;
  rewrite ?stopRecording_flush_cases in E;
  cbn [currentTranscriptionRef refs] in E;
  rewrite ?B in E;
  cbv - [stopRecording_flush trim truthy blank append selectedLanguageName
         prompt_for app] in E;
  cbn [app] in E.

Lemma run_cons (ev : Event) (rest : list Event) (s : State) :
  run TARGET_LANGUAGES (ev :: rest) s =
  run TARGET_LANGUAGES rest
    (commit (drain TARGET_LANGUAGES (dispatch TARGET_LANGUAGES ev s))).
Proof. reflexivity. Qed.

Lemma run_nil (s : State) : run TARGET_LANGUAGES [] s = s.
Proof. reflexivity. Qed.

(** Run the tasks of a [run] one layer at a time: the callback, the
    microtasks, the render. *)
Ltac run_tasks norm :=
  repeat lazymatch goal with
    | |- context [run ?L (?ev :: ?rest) ?S0] =>
        rewrite (run_cons ev rest S0);
        let x := fresh "x" in
        let E := fresh "E" in
        remember (dispatch L ev S0) as x eqn:E; norm E; subst x;
        lazymatch goal with
        | |- context [drain ?L1 ?S1] =>
            let y := fresh "y" in
            let F := fresh "F" in
            remember (drain L1 S1) as y eqn:F; norm F; subst y
        end;
        lazymatch goal with
        | |- context [commit ?S2] =>
            let z := fresh "z" in
            let G := fresh "G" in
            remember (commit S2) as z eqn:G; norm G; subst z
        end
    | |- context [run ?L [] ?S0] => rewrite (run_nil S0)
    end.

Ltac read_off B :=
  cbv zeta; unfold expected_releases;
  cbn [refs hooks world sessionPromiseRef audioContextRef streamRef
       scriptProcessorRef mediaStreamSourceRef currentTranscriptionRef
       recordingStateRef recordingState transcribedText translatedText
       error calls awaiting microtasks callbacksLanguage targetLanguage
       expected_releases];
  rewrite ?B; rewrite <- ?app_assoc; cbn [app]; rewrite ?app_nil_r;
  repeat split; try discriminate.

(** X11.  Stopping a recording, by the end-of-turn signal or by a click on
    the button, and then the acknowledgement of the audio context: every
    ref that was set is released, once and in the order session, stream,
    processor, source, context, and a ref that was already [null] costs no
    call.  With a blank transcript the session ends [IDLE] and no request
    is made; otherwise the transcript moves to the display, the buffer is
    emptied and exactly one translation request is made, whose prompt
    names the resolved language and quotes that transcript, with the
    session [TRANSLATING]. *)
Theorem stopRecording_releases_everything
    (trigger : Event) (language : string) (s : State) :
  (trigger = end_of_turn /\ language = callbacksLanguage (world s))
  \/ (trigger = click_RecordButton
      /\ recordingState (hooks s) = RECORDING
      /\ language = targetLanguage (hooks s)) ->
  recordingStateRef (refs s) = RECORDING ->
  microtasks (world s) = [] ->
  awaiting (world s) = [] ->
  let buffer := currentTranscriptionRef (refs s) in
  let name := selectedLanguageName TARGET_LANGUAGES language in
  let s' := run TARGET_LANGUAGES [trigger; audioContext_close_fulfilled] s in
  sessionPromiseRef (refs s') = false
  /\ streamRef (refs s') = false
  /\ scriptProcessorRef (refs s') = false
  /\ mediaStreamSourceRef (refs s') = false
  /\ audioContextRef (refs s') <> Some running
  /\ calls (world s') =
       (calls (world s) ++ expected_releases (refs s)
          ++ (if blank buffer then []
              else [generateContent
                      ("Translate the following text to " ++ name ++ ": "
                         ++ String "034"
                              (buffer ++ String "034" EmptyString))]))%list
  /\ recordingState (hooks s') = (if blank buffer then IDLE else TRANSLATING)
  /\ awaiting (world s') =
       (if blank buffer then []
        else [translateText_after_generateContent buffer name])
  /\ currentTranscriptionRef (refs s') = (if blank buffer then buffer else "")
  /\ transcribedText (hooks s') =
       (if blank buffer then transcribedText (hooks s) else buffer).
Proof.
  destruct s as [[rs tt tl lang hs er af]
                 [sp ac st scp ms buffer rref] [ls cl aw mt cs tr]].
  cbn [refs world hooks recordingStateRef microtasks awaiting
       currentTranscriptionRef callbacksLanguage recordingState
       targetLanguage].
  intros [[-> ->] | (-> & -> & ->)] -> -> ->;
    (destruct (blank buffer) eqn:B;
     destruct sp, st, scp, ms, ac as [[|]|];
     run_tasks ltac:(fun E => norm_layer E B);
     read_off B).
Qed.


Ltac read_fields :=
  cbv zeta;
  cbn [refs hooks world sessionPromiseRef audioContextRef streamRef
       scriptProcessorRef mediaStreamSourceRef currentTranscriptionRef
       recordingStateRef recordingState transcribedText translatedText
       error audioFile calls awaiting microtasks callbacksLanguage
       targetLanguage isDisabled RecordingState_eqb orb];
  rewrite <- ?app_assoc; cbn [app]; rewrite ?app_nil_r;
  repeat split; try discriminate.


(** X13.  A session that is started from a ready state with nothing held,
    opens, and ends at once on the end-of-turn signal gives back all it
    took: every ref is [null] again, each resource acquired was released
    once, the session is [IDLE], and no translation was asked for. *)
Theorem empty_session_round_trip (s : State) :
  isDisabled (recordingState (hooks s)) = false ->
  recordingState (hooks s) <> RECORDING ->
  microtasks (world s) = [] ->
  awaiting (world s) = [] ->
  sessionPromiseRef (refs s) = false ->
  streamRef (refs s) = false ->
  scriptProcessorRef (refs s) = false ->
  mediaStreamSourceRef (refs s) = false ->
  audioContextRef (refs s) = None ->
  let s' :=
    run TARGET_LANGUAGES
      [click_RecordButton; getUserMedia_settled (fulfilled tt); session_onopen;
       end_of_turn; audioContext_close_fulfilled] s in
  recordingState (hooks s') = IDLE
  /\ sessionPromiseRef (refs s') = false
  /\ streamRef (refs s') = false
  /\ scriptProcessorRef (refs s') = false
  /\ mediaStreamSourceRef (refs s') = false
  /\ audioContextRef (refs s') = None
  /\ awaiting (world s') = []
  /\ error (hooks s') = None
  /\ calls (world s') =
       (calls (world s)
          ++ (match audioFile (hooks s) with
              | Some _ => [audioPlayer_pause]
              | None => []
              end)
          ++ [getUserMedia; live_connect; session_close; track_stop;
              scriptProcessor_disconnect; mediaStreamSource_disconnect;
              audioContext_close])%list.
Proof.
  destruct s as [[rs tt tl lang hs er af]
                 [sp ac st scp ms buffer rref] [ls cl aw mt cs tr]].
  cbn [refs world hooks recordingState microtasks awaiting audioFile
       sessionPromiseRef streamRef scriptProcessorRef mediaStreamSourceRef
       audioContextRef].
  intros Hd Hr -> -> -> -> -> -> ->.
  assert (B : blank "" = true) by reflexivity.
  destruct rs; try discriminate Hd; try (contradiction Hr; reflexivity);
    destruct af;
    run_tasks ltac:(fun E => norm_layer E B);
    read_fields.
Qed.

(** A transport error in a state given field by field. *)
Lemma handleError_not_recording_fields
    (e : ErrorEvent) (h : Hooks) (r : Refs) (w : World) :
  recordingStateRef r <> RECORDING ->
  microtasks w = [] ->
  let s := {| hooks := h; refs := r; world := w |} in
  let s' := handle TARGET_LANGUAGES (session_onerror e) s in
  recordingState (hooks s') = ERROR
  /\ error (hooks s')
     = Some ("An error occurred: " ++ message e ++ ". Please try again.")
  /\ calls (world s') = (calls w ++ [console_error "Live session error:"])%list
  /\ sessionPromiseRef (refs s') = sessionPromiseRef r
  /\ streamRef (refs s') = streamRef r
  /\ scriptProcessorRef (refs s') = scriptProcessorRef r
  /\ mediaStreamSourceRef (refs s') = mediaStreamSourceRef r
  /\ audioContextRef (refs s') = audioContextRef r
  /\ awaiting (world s') = awaiting w.
Proof.
  destruct r as [sp ac st scp ms buffer rref], w as [ls cl aw mt cs tr].
  cbn [recordingStateRef microtasks]. intros Hr ->.
  destruct rref; try (contradiction Hr; reflexivity);
    cbv - [append app]; repeat split.
Qed.

(** [translateText], by cases on the text. *)
Lemma translateText_cases (text language : string) (s : State) :
  translateText TARGET_LANGUAGES text language s =
  if blank text then s
  else (setRecordingState TRANSLATING ;;
        setTranslatedText "Translating..." ;;
        setError None ;;
        call (generateContent
                (prompt_for (selectedLanguageName TARGET_LANGUAGES language)
                   text)) ;;
        await_host
          (translateText_after_generateContent text
             (selectedLanguageName TARGET_LANGUAGES language))) s.
Proof.
  unfold translateText. rewrite trim_truthy.
  destruct (blank text); reflexivity.
Qed.

(** One layer of a task in which a file is transcribed; the transcription
    stays a variable, so [translateText] is decided by rewriting. *)
Ltac norm_file E B :=
  cbv - [translateText trim truthy blank append selectedLanguageName
         prompt_for app fileToBase64_onload firstn] in E;
  rewrite ?translateText_cases in E;
  rewrite ?B in E;
  cbv - [translateText trim truthy blank append selectedLanguageName
         prompt_for app fileToBase64_onload firstn] in E;
  cbn [app] in E.

Ltac read_file_fields :=
  cbv zeta; unfold transcription_request;
  cbn [refs hooks world recordingState transcribedText translatedText
       error audioFile history calls awaiting microtasks targetLanguage
       isProcessing RecordingState_eqb negb andb];
  rewrite <- ?app_assoc; cbn [app]; rewrite ?app_nil_r;
  repeat split; try discriminate.

(** X15.  A click on "Transcribe File" with a file loaded, then a failure.
    When the reader fails, no request is made; when the request fails, it
    was the only one.  In both cases the session ends in [ERROR] with the
    displays empty, nothing left to wait for and the history as it was, and
    the message is "File transcription failed: " followed by the message of
    the [Error] thrown, or by a fixed text when what was thrown is not an
    [Error], which is always so for the reader. *)
Theorem transcribeAudioFile_failure
    (file : File) (result : string) (e : Thrown) (s : State) :
  audioFile (hooks s) = Some file ->
  isProcessing (recordingState (hooks s)) = false ->
  microtasks (world s) = [] ->
  awaiting (world s) = [] ->
  let read_failed :=
    run TARGET_LANGUAGES [click_transcribeFile; fileReader_onerror] s in
  let request_failed :=
    run TARGET_LANGUAGES
      [click_transcribeFile; fileReader_onload result;
       generateContent_audio_settled (rejected e)] s in
  (recordingState (hooks read_failed) = ERROR
   /\ error (hooks read_failed) =
        Some "File transcription failed: An unknown error occurred."
   /\ transcribedText (hooks read_failed) = ""
   /\ translatedText (hooks read_failed) = ""
   /\ calls (world read_failed) =
        (calls (world s)
           ++ [fileReader_readAsDataURL file;
               console_error "File transcription error:"])%list
   /\ awaiting (world read_failed) = []
   /\ history (hooks read_failed) = history (hooks s))
  /\
  (recordingState (hooks request_failed) = ERROR
   /\ error (hooks request_failed) =
        Some (match e with
              | Error_ m => "File transcription failed: " ++ m
              | NotAnError =>
                  "File transcription failed: An unknown error occurred."
              end)
   /\ transcribedText (hooks request_failed) = ""
   /\ translatedText (hooks request_failed) = ""
   /\ calls (world request_failed) =
        (calls (world s)
           ++ [fileReader_readAsDataURL file;
               transcription_request file result;
               console_error "File transcription error:"])%list
   /\ awaiting (world request_failed) = []
   /\ history (hooks request_failed) = history (hooks s)).
Proof.
  destruct s as [[rs tt tl lang hs er af]
                 [sp ac st scp ms buffer rref] [ls cl aw mt cs tr]].
  cbn [refs world hooks recordingState microtasks awaiting audioFile].
  intros -> Hp -> ->.
  assert (B : blank "" = true) by reflexivity.
  destruct rs; try discriminate Hp;
    destruct e as [m|];
    run_tasks ltac:(fun E => norm_file E B);
    read_file_fields.
Qed.


(** X17.  A click on "Transcribe File" with a file loaded, the file read,
    and a transcription that is not blank: the transcription is on display
    and has been handed to [translateText], so that after the request for
    the transcription exactly one translation request is made, whose prompt
    quotes the transcription and names the language chosen when the button
    was clicked; once that request succeeds the session is [IDLE] and the
    history starts with an entry made of the transcription, the translation
    and the language name. *)
Theorem transcribeAudioFile_chains_into_translation
    (file : File) (result transcription translation : string) (env : Env)
    (s : State) :
  audioFile (hooks s) = Some file ->
  isProcessing (recordingState (hooks s)) = false ->
  microtasks (world s) = [] ->
  awaiting (world s) = [] ->
  blank transcription = false ->
  let name := selectedLanguageName TARGET_LANGUAGES (targetLanguage (hooks s)) in
  let s1 :=
    run TARGET_LANGUAGES
      [click_transcribeFile; fileReader_onload result;
       generateContent_audio_settled (fulfilled transcription)] s in
  let s2 :=
    run TARGET_LANGUAGES
      [click_transcribeFile; fileReader_onload result;
       generateContent_audio_settled (fulfilled transcription);
       generateContent_settled (fulfilled translation) env] s in
  recordingState (hooks s1) = TRANSLATING
  /\ transcribedText (hooks s1) = transcription
  /\ calls (world s1) =
       (calls (world s)
          ++ [fileReader_readAsDataURL file;
              transcription_request file result;
              generateContent
                ("Translate the following text to " ++ name ++ ": "
                   ++ String "034"
                        (transcription ++ String "034" EmptyString))])%list
  /\ awaiting (world s1) =
       [translateText_after_generateContent transcription name]
  /\ recordingState (hooks s2) = IDLE
  /\ transcribedText (hooks s2) = transcription
  /\ translatedText (hooks s2) = translation
  /\ awaiting (world s2) = []
  /\ history (hooks s2) =
       firstn 20
         (HistoryEntry.mk (toISOString env) (toLocaleString env)
            transcription translation name
          :: history (hooks s)).
Proof.
  destruct s as [[rs tt tl lang hs er af]
                 [sp ac st scp ms buffer rref] [ls cl aw mt cs tr]].
  cbn [refs world hooks recordingState microtasks awaiting audioFile
       targetLanguage].
  intros -> Hp -> -> B.
  destruct env as [iso locale [|]];
    (destruct rs; try discriminate Hp;
     run_tasks ltac:(fun E => norm_file E B);
     read_file_fields).
Qed.

End ReleaseFacts.

Lemma stopRecording_releases_everything_witness :
  ((end_of_turn = end_of_turn
    /\ "es" = callbacksLanguage (world (recording_session "Hello")))
   \/ (end_of_turn = click_RecordButton
       /\ recordingState (hooks (recording_session "Hello")) = RECORDING
       /\ "es" = targetLanguage (hooks (recording_session "Hello"))))
  /\ recordingStateRef (refs (recording_session "Hello")) = RECORDING
  /\ microtasks (world (recording_session "Hello")) = []
  /\ awaiting (world (recording_session "Hello")) = []
  /\ streamRef
       (refs (run sample_languages [end_of_turn; audioContext_close_fulfilled]
                (recording_session "Hello")))
     = false.
Proof.
  assert (H : (end_of_turn = end_of_turn
               /\ "es" = callbacksLanguage (world (recording_session "Hello")))
              \/ (end_of_turn = click_RecordButton
                  /\ recordingState (hooks (recording_session "Hello")) = RECORDING
                  /\ "es" = targetLanguage (hooks (recording_session "Hello")))).
  { left. split; reflexivity. }
  split; [exact H|]. repeat (split; [reflexivity|]).
  exact (proj1 (proj2 (stopRecording_releases_everything sample_languages
                         end_of_turn "es" (recording_session "Hello")
                         H eq_refl eq_refl eq_refl))).
Defined.

(** X14.  A transport error that arrives while the session is not recording
    (before the session opened, say) sets [ERROR] and the error message and
    releases nothing: no release call is made and every ref, the microphone
    stream included, is left as it was. *)
Theorem transport_error_outside_recording
    (TARGET_LANGUAGES : list Language) (e : ErrorEvent) (s : State) :
  recordingStateRef (refs s) <> RECORDING ->
  microtasks (world s) = [] ->
  let s' := handle TARGET_LANGUAGES (session_onerror e) s in
  recordingState (hooks s') = ERROR
  /\ error (hooks s')
     = Some ("An error occurred: " ++ message e ++ ". Please try again.")
  /\ calls (world s')
     = (calls (world s) ++ [console_error "Live session error:"])%list
  /\ sessionPromiseRef (refs s') = sessionPromiseRef (refs s)
  /\ streamRef (refs s') = streamRef (refs s)
  /\ scriptProcessorRef (refs s') = scriptProcessorRef (refs s)
  /\ mediaStreamSourceRef (refs s') = mediaStreamSourceRef (refs s)
  /\ audioContextRef (refs s') = audioContextRef (refs s)
  /\ awaiting (world s') = awaiting (world s).
Proof.
  destruct s as [h r w]. cbn [refs world].
  apply handleError_not_recording_fields.
Qed.

Lemma transport_error_outside_recording_witness :
  let s := run sample_languages
             [click_RecordButton; getUserMedia_settled (fulfilled tt)]
             (mounted None) in
  recordingStateRef (refs s) <> RECORDING /\
  microtasks (world s) = [] /\
  streamRef (refs s) = true /\
  streamRef (refs (handle sample_languages
                     (session_onerror {| message := "boom" |}) s)) = true.
Proof.
  intros s.
  assert (H : recordingStateRef (refs s) <> RECORDING) by discriminate.
  split; [exact H|]. split; [reflexivity|]. split; [reflexivity|].
  destruct (transport_error_outside_recording sample_languages
              {| message := "boom" |} s H eq_refl)
    as (_ & _ & _ & _ & E & _).
  rewrite E. reflexivity.
Defined.


Lemma empty_session_round_trip_witness :
  isDisabled (recordingState (hooks (mounted None))) = false /\
  recordingState (hooks (mounted None)) <> RECORDING /\
  microtasks (world (mounted None)) = [] /\
  awaiting (world (mounted None)) = [] /\
  sessionPromiseRef (refs (mounted None)) = false /\
  streamRef (refs (mounted None)) = false /\
  scriptProcessorRef (refs (mounted None)) = false /\
  mediaStreamSourceRef (refs (mounted None)) = false /\
  audioContextRef (refs (mounted None)) = None /\
  recordingState
    (hooks (run sample_languages
              [click_RecordButton; getUserMedia_settled (fulfilled tt);
               session_onopen; end_of_turn; audioContext_close_fulfilled]
              (mounted None)))
  = IDLE.
Proof.
  assert (H : recordingState (hooks (mounted None)) <> RECORDING)
    by discriminate.
  split; [reflexivity|]. split; [exact H|].
  repeat (split; [reflexivity|]).
  exact (proj1 (empty_session_round_trip sample_languages (mounted None)
                  eq_refl H eq_refl eq_refl eq_refl eq_refl eq_refl eq_refl
                  eq_refl)).
Defined.

(** ** File transcription *)

Lemma transcribeAudioFile_failure_witness :
  audioFile (hooks file_loaded) = Some sample_file /\
  isProcessing (recordingState (hooks file_loaded)) = false /\
  microtasks (world file_loaded) = [] /\
  awaiting (world file_loaded) = [] /\
  error (hooks (run sample_languages
                  [click_transcribeFile;
                   fileReader_onload "data:audio/mpeg;base64,SUQz";
                   generateContent_audio_settled (rejected (Error_ "503"))]
                  file_loaded))
  = Some "File transcription failed: 503".
Proof.
  repeat (split; [reflexivity|]).
  exact (proj1 (proj2 (proj2
           (transcribeAudioFile_failure sample_languages sample_file
              "data:audio/mpeg;base64,SUQz" (Error_ "503") file_loaded
              eq_refl eq_refl eq_refl eq_refl)))).
Defined.


Lemma transcribeAudioFile_chains_into_translation_witness :
  audioFile (hooks file_loaded) = Some sample_file /\
  isProcessing (recordingState (hooks file_loaded)) = false /\
  microtasks (world file_loaded) = [] /\
  awaiting (world file_loaded) = [] /\
  blank "Hello" = false /\
  recordingState
    (hooks (run sample_languages
              [click_transcribeFile;
               fileReader_onload "data:audio/mpeg;base64,SUQz";
               generateContent_audio_settled (fulfilled "Hello");
               generateContent_settled (fulfilled "Hola")
                 (sample_env "A" false)]
              file_loaded))
  = IDLE.
Proof.
  repeat (split; [reflexivity|]).
  exact (proj1 (proj2 (proj2 (proj2 (proj2
           (transcribeAudioFile_chains_into_translation sample_languages
              sample_file "data:audio/mpeg;base64,SUQz" "Hello" "Hola"
              (sample_env "A" false) file_loaded
              eq_refl eq_refl eq_refl eq_refl eq_refl)))))).
Defined.

(** ** The language named in the prompt *)

Section LanguageFacts.

Lemma truthy_not_empty (s : string) : truthy s = true <-> s <> "".
Proof. destruct s; simpl; split; intros H; congruence. Qed.

Lemma find_first {A : Type} (f : A -> bool) (pre : list A) (x : A) (post : list A) :
  (forall y, In y pre -> f y = false) -> f x = true ->
  find f (pre ++ x :: post) = Some x.
Proof.
  induction pre as [|y pre IH]; intros Hpre Hx; simpl.
  - rewrite Hx. reflexivity.
  - rewrite (Hpre y (or_introl eq_refl)). apply IH; [|exact Hx].
    intros z Hz. apply Hpre. right. exact Hz.
Qed.

Lemma find_absent {A : Type} (f : A -> bool) (l : list A) :
  (forall y, In y l -> f y = false) -> find f l = None.
Proof.
  induction l as [|y l IH]; intros H; simpl; [reflexivity|].
  rewrite (H y (or_introl eq_refl)). apply IH.
  intros z Hz. apply H. right. exact Hz.
Qed.

End LanguageFacts.

(** X18.  The language named in the translation prompt is never empty for a
    non-empty language code: it is the name of the first entry of the table
    with that code when that name is not empty, and the code itself when no
    entry has the code. *)
Theorem selectedLanguageName_resolves
    (TARGET_LANGUAGES : list Language) (language : string) :
  language <> "" ->
  selectedLanguageName TARGET_LANGUAGES language <> ""
  /\ ((forall l, In l TARGET_LANGUAGES -> code l <> language) ->
      selectedLanguageName TARGET_LANGUAGES language = language)
  /\ (forall pre l post,
        TARGET_LANGUAGES = (pre ++ l :: post)%list ->
        (forall x, In x pre -> code x <> language) ->
        code l = language -> name l <> "" ->
        selectedLanguageName TARGET_LANGUAGES language = name l).
Proof.
  intros Hl. unfold selectedLanguageName. split; [|split].
  - destruct (find _ TARGET_LANGUAGES) as [l|]; [|exact Hl].
    destruct (truthy (name l)) eqn:T; [|exact Hl].
    apply truthy_not_empty, T.
  - intros H. rewrite find_absent; [reflexivity|].
    intros y Hy. apply String.eqb_neq, H, Hy.
  - intros pre l post -> Hpre Hc Hn.
    rewrite (find_first _ pre l post).
    + apply truthy_not_empty in Hn. rewrite Hn. reflexivity.
    + intros y Hy. apply String.eqb_neq, Hpre, Hy.
    + apply String.eqb_eq, Hc.
Qed.

Lemma selectedLanguageName_resolves_witness :
  "fr" <> "" /\
  selectedLanguageName sample_languages "fr" = "French".
Proof.
  assert (H : "fr" <> "") by discriminate.
  split; [exact H|].
  apply (proj2 (proj2 (selectedLanguageName_resolves sample_languages "fr" H))
           [ {| code := "es"; name := "Spanish" |} ]
           {| code := "fr"; name := "French" |} []).
  - reflexivity.
  - intros x [<-|[]]. discriminate.
  - reflexivity.
  - discriminate.
Defined.

(** ** Between two tasks *)

(** Whatever has happened since mount, between two tasks no continuation of
    an [await] on a fulfilled promise is left to run. *)
Lemma run_leaves_no_microtask
    (TARGET_LANGUAGES : list Language) (evs : list Event)
    (stored : option StoredItem) :
  microtasks (world (run TARGET_LANGUAGES evs (mounted stored))) = [].
Proof.
  assert (M : microtasks (world (mounted stored)) = [])
    by (destruct stored as [[entries| |]|]; reflexivity).
  revert M. generalize (mounted stored).
  induction evs as [|ev evs IH]; intros s M; [exact M|].
  simpl. apply IH. unfold handle, seq_cmd.
  change (microtasks (world (commit ?x))) with (microtasks (world x)).
  apply drain_empties.
Qed.
